(** * package.py: the status engine of the dotfile layers

    The program links the files of a layer ([<layer>/home/...]) into the
    home directory and computes, for every binding of a tracked file to a
    layer (a Node) and for every Layer, a status from what is on disk.

    The development has three parts:
    - the operating-system calls the program makes ([os.path.*],
      [os.remove], [os.symlink], [os.makedirs], [git diff --no-index],
      [print], [input], [subprocess.call]), over a finite map from paths
      to directory entries;
    - the program itself, written in a state-and-exception monad:
      [git_diff]; the methods of Node ([get_status], [unmerge], [merge],
      [force_out], [force_in], [print_detailed]) and of Layer
      ([get_status], [merge], [unmerge], [print_detailed]); the commands
      of the script; the registry ([Files.get], [File.create_node]) and
      the loading of the layers ([Layer.__init__]);
    - the properties. *)

From Stdlib Require Import String Ascii List.
From stdpp Require Import gmap strings list.

Local Open Scope string_scope.

(** ** Path strings (posixpath) *)

Module Path.

(** [s.split('/')] *)
Fixpoint split_sep (s : string) : list string :=
  match s with
  | EmptyString => [EmptyString]
  | String c rest =>
      if Ascii.eqb c "/" then EmptyString :: split_sep rest
      else match split_sep rest with
           | [] => [String c EmptyString]
           | w :: ws => String c w :: ws
           end
  end.

(** ['/'.join(comps)] *)
Fixpoint join_sep (comps : list string) : string :=
  match comps with
  | [] => ""
  | [w] => w
  | w :: ws => w ++ "/" ++ join_sep ws
  end.

Definition starts_with (p s : string) : bool := String.prefix p s.

Definition is_nil {A} (l : list A) : bool :=
  match l with [] => true | _ => false end.

(** The number of leading slashes [normpath] keeps: POSIX allows one or
    two, three or more count as one. *)
Definition initial_slashes (path : string) : nat :=
  if starts_with "/" path then
    if starts_with "//" path && negb (starts_with "///" path) then 2 else 1
  else 0.

(** One turn of the loop of [normpath]; [stack] is [new_comps], last
    component first. *)
Definition normpath_step (slashes : nat) (stack : list string) (comp : string)
  : list string :=
  if (comp =? "") || (comp =? ".") then stack
  else if negb (comp =? "..")
          || (Nat.eqb slashes 0 && is_nil stack)
          || (match stack with top :: _ => top =? ".." | [] => false end)
       then comp :: stack
       else match stack with _ :: below => below | [] => [] end.

Fixpoint slashes_string (n : nat) : string :=
  match n with 0 => "" | S k => "/" ++ slashes_string k end.

(** [os.path.normpath] *)
Definition normpath (path : string) : string :=
  if path =? "" then "."
  else
    let slashes := initial_slashes path in
    let comps := rev (fold_left (normpath_step slashes) (split_sep path) []) in
    let p := slashes_string slashes ++ join_sep comps in
    if p =? "" then "." else p.

Fixpoint drop_empty (comps : list string) : list string :=
  match comps with
  | w :: ws => if w =? "" then drop_empty ws else comps
  | [] => []
  end.

(** [os.path.split]: head and tail around the last slash; trailing
    slashes are stripped from the head unless it is all slashes. *)
Definition split (p : string) : string * string :=
  let comps := split_sep p in
  let tail := List.last comps "" in
  let pre := removelast comps in
  match pre with
  | [] => ("", tail)
  | _ =>
      let kept := rev (drop_empty (rev pre)) in
      (if is_nil kept then join_sep pre ++ "/" else join_sep kept, tail)
  end.

(** [os.path.dirname] *)
Definition dirname (p : string) : string := fst (split p).

(** [os.path.basename] *)
Definition basename (p : string) : string := snd (split p).

(** [path.endswith('/')] *)
Fixpoint ends_with_slash (path : string) : bool :=
  match path with
  | EmptyString => false
  | String c EmptyString => Ascii.eqb c "/"
  | String _ rest => ends_with_slash rest
  end.

(** [os.path.join(a, b)] *)
Definition join (a b : string) : string :=
  if starts_with "/" b then b
  else if (a =? "") || ends_with_slash a then a ++ b
  else a ++ "/" ++ b.

End Path.

(** ** The file system

    A finite map from absolute, normalised path strings to what is there.
    Every call normalises the path it is given before it looks it up.  A
    link's destination is kept as the string it was created with and is
    looked up, normalised, from the root: the program only creates links
    to absolute destinations ([Files.configuration_root] is a realpath).
    Directories hold no listing: a path is in a directory when the map
    has the directory at its [dirname]. *)

Inductive entry : Type :=
  | Regular (content : string)
  | Symlink (dest : string)
  | Directory.

#[global] Instance entry_eq_dec : EqDecision entry.
Proof. solve_decision. Defined.

Abbreviation filesystem := (gmap string entry).

Inductive exn : Type :=
  | NotSupported          (* Exception("Not supported") *)
  | FileNotFoundError
  | FileExistsError
  | IsADirectoryError
  | NotADirectoryError
  | OSError
  | EOFError.

Module OS.

(** [lstat]: what is at the path itself. *)
Definition lstat (fs : filesystem) (p : string) : option entry :=
  fs !! Path.normpath p.

(** Follows symbolic links from the key [k]; past [hops] links the
    kernel gives up (ELOOP). *)
Fixpoint follow (hops : nat) (fs : filesystem) (k : string) : option entry :=
  match fs !! k with
  | Some (Symlink dest) =>
      match hops with
      | 0 => None
      | S h => follow h fs (Path.normpath dest)
      end
  | other => other
  end.

Definition MAXSYMLINKS : nat := 40.

(** [stat]: what the path resolves to. *)
Definition stat (fs : filesystem) (p : string) : option entry :=
  follow MAXSYMLINKS fs (Path.normpath p).

Definition isfile (fs : filesystem) (p : string) : bool :=
  match stat fs p with Some (Regular _) => true | _ => false end.

Definition isdir (fs : filesystem) (p : string) : bool :=
  match stat fs p with Some Directory => true | _ => false end.

Definition exists_ (fs : filesystem) (p : string) : bool :=
  match stat fs p with Some _ => true | None => false end.

Definition readlink (fs : filesystem) (p : string) : exn + string :=
  match lstat fs p with
  | Some (Symlink dest) => inr dest
  | Some _ => inl OSError
  | None => inl FileNotFoundError
  end.

Definition remove (fs : filesystem) (p : string) : exn + filesystem :=
  match lstat fs p with
  | None => inl FileNotFoundError
  | Some Directory => inl IsADirectoryError
  | Some _ => inr (delete (Path.normpath p) fs)
  end.

(** What creating a new entry at [p] needs of its parent directory. *)
Definition parent_error (fs : filesystem) (p : string) : option exn :=
  match stat fs (Path.dirname (Path.normpath p)) with
  | Some Directory => None
  | Some _ => Some NotADirectoryError
  | None => Some FileNotFoundError
  end.

Definition create (fs : filesystem) (p : string) (e : entry)
  : exn + filesystem :=
  match lstat fs p with
  | Some _ => inl FileExistsError
  | None =>
      match parent_error fs p with
      | Some err => inl err
      | None => inr (<[Path.normpath p := e]> fs)
      end
  end.

(** [os.symlink(src, dst)] *)
Definition symlink (fs : filesystem) (src dst : string) : exn + filesystem :=
  create fs dst (Symlink src).

Definition mkdir (fs : filesystem) (name : string) : exn + filesystem :=
  create fs name Directory.

(** The last step of [os.makedirs(name, exist_ok=True)]: [mkdir(name)],
    whose error is dropped when the directory is there. *)
Definition mkdir_exist_ok (fs : filesystem) (name : string) : exn + filesystem :=
  match mkdir fs name with
  | inr fs' => inr fs'
  | inl err => if isdir fs name then inr fs else inl err
  end.

(** [os.makedirs(name, exist_ok=True)].  The recursion is on the head of
    [os.path.split], which is shorter than the name; [depth] bounds it. *)
Fixpoint makedirs_rec (depth : nat) (fs : filesystem) (name : string)
  : exn + filesystem :=
  let '(head, tail) := Path.split name in
  let '(head, tail) := if tail =? "" then Path.split head else (head, tail) in
  if negb (head =? "") && negb (tail =? "") && negb (exists_ fs head) then
    match depth with
    | 0 => inl OSError
    | S d =>
        match makedirs_rec d fs head with
        | inl FileExistsError =>
            if tail =? "." then inr fs else mkdir_exist_ok fs name
        | inl err => inl err
        | inr fs1 => if tail =? "." then inr fs1 else mkdir_exist_ok fs1 name
        end
    end
  else mkdir_exist_ok fs name.

Definition makedirs (fs : filesystem) (name : string) : exn + filesystem :=
  makedirs_rec (String.length name) fs name.

End OS.

(** ** The world and the monad of the program

    Besides the file system the program reads lines from the terminal
    ([input]), prints lines ([print]) and starts the hooks of a layer
    ([subprocess.call]).  What a hook does itself is outside the model:
    a call is recorded in [calls]. *)

Record world : Type := World {
  fs : filesystem;
  stdin : list string;      (* the lines still to be read *)
  stdout : list string;     (* the lines printed so far *)
  calls : list string       (* the hooks started so far *)
}.

Definition set_fs (fs' : filesystem) (w : world) : world :=
  {| fs := fs'; stdin := stdin w; stdout := stdout w; calls := calls w |}.

(** [log out w]: the world after printing the lines [out]. *)
Definition log (out : list string) (w : world) : world :=
  {| fs := fs w; stdin := stdin w; stdout := stdout w ++ out; calls := calls w |}.

(** A call returns a value, raises an exception, or does neither: the
    nesting of [get_status] calls went deeper than the depth allowed.  A
    call that does neither at every depth is one that the interpreter
    ends with RecursionError. *)
Inductive outcome (A : Type) : Type :=
  | Returned (a : A) (w : world)
  | Raised (e : exn) (w : world)
  | Diverged.
Arguments Returned {A} a w.
Arguments Raised {A} e w.
Arguments Diverged {A}.

Definition M (A : Type) : Type := world -> outcome A.

Definition ret {A} (a : A) : M A := fun w => Returned a w.
Definition raise {A} (e : exn) : M A := fun w => Raised e w.
Definition diverge {A} : M A := fun _ => Diverged.

Definition bind {A B} (m : M A) (k : A -> M B) : M B :=
  fun w =>
    match m w with
    | Returned a w' => k a w'
    | Raised e w' => Raised e w'
    | Diverged => Diverged
    end.

(** [try: m except Exception: handler] *)
Definition try_ {A} (m : M A) (handler : exn -> M A) : M A :=
  fun w =>
    match m w with
    | Raised e w' => handler e w'
    | other => other
    end.

Notation "'let*' x ':=' m 'in' k" := (bind m (fun x => k))
  (at level 10, x name, m at level 100, k at level 200).

(** A read of the file system. *)
Definition ask {A} (q : filesystem -> A) : M A := fun w => Returned (q (fs w)) w.

(** A read that may raise. *)
Definition attempt {A} (q : filesystem -> exn + A) : M A :=
  fun w => match q (fs w) with inl e => Raised e w | inr a => Returned a w end.

(** A change of the file system that may raise. *)
Definition mutate (op : filesystem -> exn + filesystem) : M unit :=
  fun w =>
    match op (fs w) with
    | inl e => Raised e w
    | inr fs' => Returned tt (set_fs fs' w)
    end.

Definition print (line : string) : M unit := fun w => Returned tt (log [line] w).

(** [input(prompt)]: the prompt is written, the next line is read. *)
Definition input (prompt : string) : M string :=
  fun w =>
    match stdin w with
    | [] => Raised EOFError (log [prompt] w)
    | line :: rest =>
        Returned line
          {| fs := fs w; stdin := rest; stdout := stdout w ++ [prompt];
             calls := calls w |}
    end.

(** [subprocess.call(f)] *)
Definition subprocess_call (f : string) : M unit :=
  fun w =>
    Returned tt
      {| fs := fs w; stdin := stdin w; stdout := stdout w; calls := calls w ++ [f] |}.

Definition os_path_isfile (p : string) : M bool := ask (fun fs => OS.isfile fs p).
Definition os_readlink (p : string) : M string := attempt (fun fs => OS.readlink fs p).
Definition os_remove (p : string) : M unit := mutate (fun fs => OS.remove fs p).
Definition os_symlink (src dst : string) : M unit :=
  mutate (fun fs => OS.symlink fs src dst).
Definition os_makedirs (name : string) : M unit :=
  mutate (fun fs => OS.makedirs fs name).

(** ** The comparison tool

    [git diff --no-index file1 file2] is not part of the program.  What
    it does for a file system and two paths is a parameter: the process
    does not start ([Popen] raises), its output cannot be read or decoded
    ([communicate] or [decode] raises), or it writes [text] to its
    standard output. *)

Inductive popen : Type :=
  | SpawnFails
  | Unreadable
  | Stdout (text : string).

Class Git : Type := git_diff_no_index : filesystem -> string -> string -> popen.

(** [str.strip() == ""], on the ASCII white space. *)
Definition is_space (c : ascii) : bool :=
  let n := nat_of_ascii c in
  (Nat.leb 9 n && Nat.leb n 13) || (Nat.leb 28 n && Nat.leb n 32).

Fixpoint strip_is_empty (s : string) : bool :=
  match s with
  | EmptyString => true
  | String c rest => is_space c && strip_is_empty rest
  end.

(** ** The data of the program *)

Inductive Status : Type :=
  | Missing       (* 'N' *)
  | Owned         (* 'O' *)
  | Symlinked     (* 'S' *)
  | Identical     (* 'C' *)
  | Conflicted.   (* '!' *)

#[global] Instance Status_eq_dec : EqDecision Status.
Proof. solve_decision. Defined.

(** A Node object; [node_id] stands for the identity of the object, which
    is what [n != self] compares. *)
Record Node : Type := mkNode {
  node_id : nat;
  layer : string;           (* the name of the layer it belongs to *)
  path : string             (* the source: layer.node_root/rel_path *)
}.

(** A File object; [file_path] is [File.path], the target in the home
    directory. *)
Record File : Type := mkFile {
  rel_path : string;
  file_path : string;
  nodes : list Node
}.

(** A Layer object.  Each of its nodes comes with the File it is bound
    to ([Node.file]). *)
Record Layer : Type := mkLayer {
  name : string;
  layer_nodes : list (File * Node);
  merge_hooks : list string;
  unmerge_hooks : list string
}.

(** ** Names that are not there

    Three lookups of the program ask for a name that does not exist:
    [os.path.readlink] (the function is [os.readlink]) and [self.package]
    in [Node.force_in], and [l.convert_to_symlink] in the command
    [doctor].  Such a lookup raises AttributeError.  It is an Exception,
    so a [try] around the lookup catches it; elsewhere it ends the
    program.  AttributeError is kept apart from the exceptions of the
    operating system calls: a call that one may end answers with an
    [ending]. *)

Inductive attribute (A : Type) : Type :=
  | Has (a : A)
  | Lacks (object name : string).
Arguments Has {A} a.
Arguments Lacks {A} object name.

Inductive ending : Type :=
  | Done
  | AttributeError (object name : string).

(** The module [posixpath] defines no [readlink]. *)
Definition os_path_readlink : attribute (string -> M string) :=
  Lacks "posixpath" "readlink".

(** [Node.__init__] sets [file], [layer], [rel_path] and [path]. *)
Definition package (self : Node) : attribute string := Lacks "Node" "package".

(** The class Layer defines no [convert_to_symlink]. *)
Definition convert_to_symlink (l : Layer) : attribute (M unit) :=
  Lacks "Layer" "convert_to_symlink".

(** [shutil.copyfile(src, dst)] is not part of the program: what it does
    is a parameter. *)
Class Shutil : Type := shutil_copyfile : string -> string -> M unit.

(** The letter of a status. *)
Definition letter (s : Status) : string :=
  match s with
  | Missing => "N"
  | Owned => "O"
  | Symlinked => "S"
  | Identical => "C"
  | Conflicted => "!"
  end.

(** ['\t'] *)
Definition tab : string := String (ascii_of_nat 9) EmptyString.

(** The arguments as [parse_args] returns them. *)
Record Namespace : Type := mkNamespace {
  command : string;
  wanted_layer : option string      (* args.layer *)
}.

(** ** The program *)

Section Comparator.

Context {git : Git}.

(** [subprocess.Popen(['git', 'diff', '--no-index', file1, file2], ...)] *)
Definition Popen (file1 file2 : string) : M popen :=
  attempt (fun fs =>
             match git_diff_no_index fs file1 file2 with
             | SpawnFails => inl FileNotFoundError
             | started => inr started
             end).

(** [diff.communicate()[0].decode('UTF-8')] *)
Definition communicate (diff : popen) : M string :=
  match diff with
  | Stdout text => ret text
  | _ => raise OSError
  end.

(** The call of [Popen] stands before the [try]. *)
Definition git_diff (file1 file2 : string) : M bool :=
  let* diff := Popen file1 file2 in
  try_
    (let* result := communicate diff in
     ret (strip_is_empty result))
    (fun _ =>
       let* _ := print "WARNING! Could not call git diff" in
       ret false).

End Comparator.

(** [s in ['C', 'S']] *)
Definition claims (s : Status) : bool :=
  match s with Identical | Symlinked => true | _ => false end.

(** [s not in ['C', 'S', 'N']] *)
Definition unsupported (s : Status) : bool :=
  match s with Identical | Symlinked | Missing => false | _ => true end.

(** [for x in xs: body(x)] *)
Fixpoint for_each {A} (xs : list A) (body : A -> M unit) : M unit :=
  match xs with
  | [] => ret tt
  | x :: rest => let* _ := body x in for_each rest body
  end.

(** The methods of the class Node.  A method takes the File the node is
    bound to ([self.file]) next to the node. *)
Module Node.

Section Methods.

Context {git : Git}.

(** The loop of the fourth case of [get_status] over [file.nodes];
    [status_of n] is [n.get_status()]. *)
Fixpoint scan_siblings (status_of : Node -> M Status) (self : Node)
    (ns : list Node) : M Status :=
  match ns with
  | [] => ret Conflicted
  | n :: rest =>
      if negb (Nat.eqb (node_id n) (node_id self)) then
        let* s := status_of n in
        if claims s then ret Owned
        else scan_siblings status_of self rest
      else scan_siblings status_of self rest
  end.

(** [depth] is the number of nested calls allowed. *)
Fixpoint get_status (depth : nat) (f : File) (self : Node) : M Status :=
  match depth with
  | 0 => diverge
  | S d =>
      let* present := os_path_isfile (file_path f) in
      if negb present then ret Missing
      else
        let* symlink :=
          try_ (let* dest := os_readlink (file_path f) in ret (Some dest))
               (fun _ => ret None) in
        if match symlink with
           | Some dest => Path.normpath dest =? Path.normpath (path self)
           | None => false
           end
        then ret Symlinked
        else
          let* same := git_diff (path self) (file_path f) in
          if same then ret Identical
          else scan_siblings (get_status d f) self (nodes f)
  end.

Definition unmerge (depth : nat) (f : File) (self : Node) : M unit :=
  let* status := get_status depth f self in
  if unsupported status then raise NotSupported
  else if decide (status = Missing) then ret tt
  else
    let* _ := print ("Removing " ++ file_path f) in
    os_remove (file_path f).

Definition merge (depth : nat) (f : File) (self : Node) : M unit :=
  let* status := get_status depth f self in
  if unsupported status then raise NotSupported
  else if decide (status = Symlinked) then ret tt
  else
    let* _ := unmerge depth f self in
    let* _ := if decide (status = Missing)
              then os_makedirs (Path.dirname (file_path f))
              else ret tt in
    let* _ := print ("Symlinking " ++ file_path f ++ " -> " ++ path self) in
    os_symlink (path self) (file_path f).

(** [confirm != 'n' and confirm != 'N' and confirm != 'No' and confirm != 'no'] *)
Definition proceeds (confirm : string) : bool :=
  negb (confirm =? "n") && negb (confirm =? "N")
  && negb (confirm =? "No") && negb (confirm =? "no").


(** The lookup of [os.path.readlink] stands in the [try]; the lookup of
    [self.package] is evaluated before [os.remove] is called. *)
Definition force_in {shutil : Shutil} (depth : nat) (f : File) (self : Node)
    : M ending :=
  let* status := get_status depth f self in
  if negb (bool_decide (status = Conflicted)) then raise NotSupported
  else
    let* _ := print ("Warning! Overwriting changes in " ++ path self) in
    let* confirm := input "Proceed? [Y/n]" in
    if proceeds confirm then
      let* symlink :=
        match os_path_readlink with
        | Has readlink =>
            try_ (let* dest := readlink (file_path f) in ret (Some dest))
                 (fun _ => ret None)
        | Lacks _ _ => ret None
        end in
      match package self with
      | Lacks object name => ret (AttributeError object name)
      | Has package =>
          let* _ := os_remove package in
          let* _ := match symlink with
                    | Some dest => shutil_copyfile dest (path self)
                    | None => shutil_copyfile (file_path f) (path self)
                    end in
          ret Done
      end
    else ret Done.

(** [self.rel_path] is [file.rel_path]. *)
Definition print_detailed (depth : nat) (f : File) (self : Node) : M unit :=
  let* status := get_status depth f self in
  print (tab ++ "[" ++ letter status ++ "] " ++ rel_path f).

End Methods.

End Node.

(** The methods of the class Layer. *)
Module Layer.

Section Methods.

Context {git : Git}.

(** The loop of [get_status]; [status] is the local variable.  The last
    branch of the source, for a status outside the five, is not
    reachable: [Node.get_status] returns no other. *)
Fixpoint get_status_loop (depth : nat) (status : Status)
    (ns : list (File * Node)) : M Status :=
  match ns with
  | [] => ret status
  | (f, n) :: rest =>
      let* s := Node.get_status depth f n in
      match s with
      | Missing => ret Missing
      | Conflicted => ret Missing
      | Owned => ret Owned
      | Symlinked => get_status_loop depth status rest
      | Identical => get_status_loop depth Identical rest
      end
  end.

Definition get_status (depth : nat) (l : Layer) : M Status :=
  get_status_loop depth Symlinked (layer_nodes l).

Definition merge (depth : nat) (l : Layer) : M unit :=
  let* status := get_status depth l in
  if unsupported status then raise NotSupported
  else if decide (status = Symlinked) then ret tt
  else
    let* _ := print ("Merging " ++ name l ++ "...") in
    let* _ := for_each (layer_nodes l)
                (fun fn => Node.merge depth (fst fn) (snd fn)) in
    for_each (merge_hooks l)
      (fun h =>
         let* _ := print ("Executing hook " ++ h ++ "...") in
         subprocess_call h).

Definition unmerge (depth : nat) (l : Layer) : M unit :=
  let* status := get_status depth l in
  if unsupported status then raise NotSupported
  else if decide (status = Missing) then ret tt
  else
    let* _ := print ("Unmerging " ++ name l ++ "...") in
    for_each (layer_nodes l) (fun fn => Node.unmerge depth (fst fn) (snd fn)).

Definition print_detailed (depth : nat) (l : Layer) : M unit :=
  let* _ := print "---------------------" in
  let* status := get_status depth l in
  let* _ := print ("[" ++ letter status ++ "] " ++ name l) in
  for_each (layer_nodes l)
    (fun fn => Node.print_detailed depth (fst fn) (snd fn)).

End Methods.

End Layer.

(** ** The commands of the script *)

Section Commands.

Context {git : Git}.

(** The loop of the command [doctor]. *)
Fixpoint doctor (depth : nat) (layers : list Layer) : M ending :=
  match layers with
  | [] => ret Done
  | l :: rest =>
      let* status := Layer.get_status depth l in
      if bool_decide (status = Identical) then
        match convert_to_symlink l with
        | Has method => let* _ := method in doctor depth rest
        | Lacks object name => ret (AttributeError object name)
        end
      else doctor depth rest
  end.

(** The loop that looks for the layer of the name given: the first one
    in [layers]. *)
Definition find_layer (layers : list Layer) (wanted : string) : option Layer :=
  List.find (fun l => name l =? wanted) layers.

(** The branches of the script on [args], with the layers loaded. *)
Definition dispatch (depth : nat) (layers : list Layer) (args : Namespace)
    : M ending :=
  if command args =? "status" then
    let* _ := for_each layers (Layer.print_detailed depth) in
    ret Done
  else if command args =? "doctor" then doctor depth layers
  else if command args =? "merge" then
    match wanted_layer args with
    | None => let* _ := print "Missing layer" in ret Done
    | Some wanted =>
        match find_layer layers wanted with
        | None => let* _ := print ("Layer not found: " ++ wanted) in ret Done
        | Some l => let* _ := Layer.merge depth l in ret Done
        end
    end
  else if command args =? "unmerge" then
    match wanted_layer args with
    | None => let* _ := print "Missing layer" in ret Done
    | Some wanted =>
        match find_layer layers wanted with
        | None => let* _ := print ("Layer not found: " ++ wanted) in ret Done
        | Some l => let* _ := Layer.unmerge depth l in ret Done
        end
    end
  else
    let* _ := print ("Unrecognized command '" ++ command args ++ "'") in
    ret Done.

End Commands.

(** ** The registry and the loading of the layers

    [Files.files] is the list of the File objects.  The list only grows
    at its end, so a File object is known by its place in it.
    [File.nodes] of an object grows while the layers are loaded: a Layer
    object keeps, for each of its nodes, the place of the File, and the
    Layer records that the commands work on are read off the registry
    when all layers are loaded.

    [get_all_files] and the directories of the configuration root come
    from [os.walk], in the order of the directory: they are parameters. *)

Class Walk : Type := {
  (* [get_all_files(directory)], as a list *)
  get_all_files : filesystem -> string -> list string;
  (* [next(os.walk(top))[1]] *)
  subdirectories : filesystem -> string -> list string
}.

Record Files : Type := mkFiles {
  files : list File;
  configuration_root : string;
  root : string
}.

(** What the loading has made: the registry, and the number of Node
    objects, which is the identity of the next one. *)
Record heap : Type := mkHeap {
  registry : Files;
  made : nat
}.

(** A Layer object while the layers are loaded: [nodes] holds, with each
    Node, the place of its File in the registry. *)
Record LayerObject : Type := mkLayerObject {
  layer_path : string;
  node_root : string;
  layer_name : string;
  node_refs : list (nat * Node);
  layer_merge_hooks : list string;
  layer_unmerge_hooks : list string
}.

#[global] Instance File_inhabited : Inhabited File := populate (mkFile "" "" []).

(** [Node(file_, layer)]; [id] is the identity of the new object.  Of
    the layer the node keeps the name: the layers of one run are the
    directories of one directory, and their names tell them apart. *)
Definition Node_init (id : nat) (file_ : File) (name node_root : string) : Node :=
  mkNode id name (Path.join node_root (rel_path file_)).

Module File.

(** [File(rel_path, path)] *)
Definition init (rel_path path : string) : File := mkFile rel_path path [].

(** [self.create_node(layer)]: the node, the File after the call and the
    number of nodes made after it. *)
Definition create_node (self : File) (name node_root : string) (made : nat)
    : Node * File * nat :=
  match list_find (fun p => layer p = name) (nodes self) with
  | Some (_, p) => (p, self, made)
  | None =>
      let p := Node_init made self name node_root in
      (p, mkFile (rel_path self) (file_path self) (nodes self ++ [p]), S made)
  end.

End File.

Module Files.

(** [Files()]; [script] is [os.path.realpath(__file__)] and [home] is
    [os.environ['HOME']]. *)
Definition init (script home : string) : Files :=
  mkFiles [] (Path.dirname script) home.

(** [self.get(rel_path)], with [rel] for the argument: the place of the
    File and the registry after the call. *)
Definition get (self : Files) (rel : string) : nat * Files :=
  let key := Path.normpath rel in
  match list_find (fun f => rel_path f = key) (files self) with
  | Some (i, _) => (i, self)
  | None =>
      (length (files self),
       mkFiles (files self ++ [File.init key (Path.join (root self) key)])
         (configuration_root self) (root self))
  end.

End Files.

(** The File at the place [i] is now [file]. *)
Definition store (i : nat) (file : File) (self : Files) : Files :=
  mkFiles (<[i := file]> (files self)) (configuration_root self) (root self).

(** [[files.get(f).create_node(self) for f in listing]] *)
Fixpoint create_nodes (name node_root : string) (listing : list string)
    (h : heap) : list (nat * Node) * heap :=
  match listing with
  | [] => ([], h)
  | f :: rest =>
      let '(i, reg) := Files.get (registry h) f in
      let '(p, file, made') :=
        File.create_node (files reg !!! i) name node_root (made h) in
      let '(refs, h') :=
        create_nodes name node_root rest (mkHeap (store i file reg) made') in
      ((i, p) :: refs, h')
  end.

Section Loading.

Context {walk : Walk}.

(** [Layer(path, files)] *)
Definition Layer_init (disk0 : filesystem) (path : string) (h : heap)
    : LayerObject * heap :=
  let node_root := Path.join path "home" in
  let name := Path.basename (Path.normpath path) in
  let '(refs, h') :=
    create_nodes name node_root (get_all_files disk0 node_root) h in
  (mkLayerObject path node_root name refs
     (map (fun f => Path.join (Path.join path "merge") f)
        (get_all_files disk0 (Path.join path "merge")))
     (map (fun f => Path.join (Path.join path "unmerge") f)
        (get_all_files disk0 (Path.join path "unmerge"))),
   h').

(** The loop [for f in ...: layers += [Layer(os.path.join(root, f), files)]] *)
Fixpoint load_layers (disk0 : filesystem) (conf_root : string)
    (dirs : list string) (h : heap) : list LayerObject * heap :=
  match dirs with
  | [] => ([], h)
  | f :: rest =>
      let '(l, h1) := Layer_init disk0 (Path.join conf_root f) h in
      let '(ls, h2) := load_layers disk0 conf_root rest h1 in
      (l :: ls, h2)
  end.

(** The Layer object with the File objects as they are in [reg]. *)
Definition the_layer (reg : Files) (l : LayerObject) : Layer :=
  mkLayer (layer_name l)
    (map (fun r => (files reg !!! fst r, snd r)) (node_refs l))
    (layer_merge_hooks l) (layer_unmerge_hooks l).

(** The layers as the script has them before it looks at [args]. *)
Definition loaded (disk0 : filesystem) (script home : string) : list Layer :=
  let start := mkHeap (Files.init script home) 0 in
  let conf_root := configuration_root (registry start) in
  let '(objects, h) :=
    load_layers disk0 conf_root (subdirectories disk0 conf_root) start in
  map (the_layer (registry h)) objects.

(** The script, from the arguments that [parse_args] returns. *)
Definition main {git : Git} (depth : nat) (script home : string)
    (args : Namespace) : M ending :=
  let* layers := ask (fun disk0 => loaded disk0 script home) in
  dispatch depth layers args.

End Loading.

(** ** The tests of [Node.get_status], read off the file system *)

Section Tests.

Context {git : Git}.

(** The second case: the target is a link and, normalised, its
    destination is the source of the node. *)
Definition linked (disk0 : filesystem) (f : File) (n : Node) : bool :=
  match OS.readlink disk0 (file_path f) with
  | inr dest => Path.normpath dest =? Path.normpath (path n)
  | inl _ => false
  end.

(** [git_diff(n.path, f.path)] returns [True]. *)
Definition same_content (disk0 : filesystem) (f : File) (n : Node) : bool :=
  match git_diff_no_index disk0 (path n) (file_path f) with
  | Stdout text => strip_is_empty text
  | _ => false
  end.

(** [git_diff(n.path, f.path)] returns [False]. *)
Definition differs (disk0 : filesystem) (f : File) (n : Node) : bool :=
  match git_diff_no_index disk0 (path n) (file_path f) with
  | Stdout text => negb (strip_is_empty text)
  | Unreadable => true
  | SpawnFails => false
  end.

(** The first node of [file.nodes] that is not [self]. *)
Definition first_sibling (f : File) (self : Node) : option Node :=
  List.find (fun m => negb (Nat.eqb (node_id m) (node_id self))) (nodes f).

End Tests.

(** ** Relations between file systems and worlds *)

(** Nothing that is in [disk0] is changed or removed in [disk1], except
    possibly at the keys [ks]. *)
Definition keeps (ks : list string) (disk0 disk1 : filesystem) : Prop :=
  forall k e, k ∉ ks -> disk0 !! k = Some e -> disk1 !! k = Some e.

(** The key of the target of a file and of the source of a node. *)
Definition target_key (f : File) : string := Path.normpath (file_path f).
Definition source_key (n : Node) : string := Path.normpath (path n).

(** The terminal and the hooks are where they were. *)
Definition same_io (w w1 : world) : Prop :=
  stdin w1 = stdin w /\ calls w1 = calls w.


(** ** Statuses of the nodes of a layer *)

Section Reports.

Context {git : Git}.

(** The node, asked in the world [w], answers [s]. *)
Definition reports (d : nat) (w : world) (fn : File * Node) (s : Status) : Prop :=
  exists w', Node.get_status d (fst fn) (snd fn) w = Returned s w'.

(** Symlinked or Identical: the node does not end the scan of its layer. *)
Definition merged (d : nat) (w : world) (fn : File * Node) : Prop :=
  reports d w fn Symlinked \/ reports d w fn Identical.

End Reports.

(** ** The nodes of a well-formed layer

    The registry keeps one File for each relative path, so the targets
    of the nodes of a layer are different paths.  The layer is sound on
    a disk when, besides, the source of every node is a regular file and
    no source is the target of a node of the layer. *)

Definition targets (ns : list (File * Node)) : list string :=
  map (fun fn => target_key (fst fn)) ns.



(** ** What a status query does to the world

    A query only prints: it returns the same answer and prints the same
    lines in every world with the same file system. *)

Inductive result (A : Type) : Type :=
  | Val (a : A)
  | Exn (e : exn)
  | Loop.
Arguments Val {A} a.
Arguments Exn {A} e.
Arguments Loop {A}.

Definition finish {A} (r : result A) (w : world) : outcome A :=
  match r with
  | Val a => Returned a w
  | Exn e => Raised e w
  | Loop => Diverged
  end.

Definition query {A} (m : M A) : Prop :=
  forall disk0 : filesystem, exists (r : result A) (out : list string),
    forall w, fs w = disk0 -> m w = finish r (log out w).

(** ** Concrete tools and worlds *)

(** [git diff --no-index] as git does it: it looks at the two paths with
    [lstat] (a link is compared as a link, not as what it points to),
    reports a path it cannot access on its standard error and writes a
    diff to its standard output only when the two entries differ. *)
Definition git_lstat : Git :=
  fun fs file1 file2 =>
    match OS.lstat fs file1, OS.lstat fs file2 with
    | Some e1, Some e2 =>
        if decide (e1 = e2) then Stdout ""
        else Stdout ("diff --git a" ++ file1 ++ " b" ++ file2)
    | _, _ => Stdout ""
    end.

(** No git executable: [Popen] raises. *)
Definition git_absent : Git := fun _ _ _ => SpawnFails.

Definition disk (entries : list (string * entry)) : filesystem :=
  list_to_map entries.

Definition boot (fs0 : filesystem) (lines : list string) : world :=
  {| fs := fs0; stdin := lines; stdout := []; calls := [] |}.

(** The home directory is [/home/u]; the layers stand under [/d].  Five
    layers supply [.vimrc]: [vim] and [alt] with the same content, [old]
    and [bak] each with another, and [ghost], where [home/.vimrc] is a
    link to a file that is gone ([os.walk] lists such a link among the
    files of the layer). *)
Definition vim : Node := mkNode 1 "vim" "/d/vim/home/.vimrc".
Definition alt : Node := mkNode 2 "alt" "/d/alt/home/.vimrc".
Definition old : Node := mkNode 3 "old" "/d/old/home/.vimrc".
Definition bak : Node := mkNode 4 "bak" "/d/bak/home/.vimrc".
Definition ghost : Node := mkNode 5 "ghost" "/d/ghost/home/.vimrc".

Definition vimrc (ns : list Node) : File := mkFile ".vimrc" "/home/u/.vimrc" ns.

(** The layers [old] and [vim] also supply [.zshrc], and [old] supplies
    [.tmux.conf]. *)
Definition old_zsh : Node := mkNode 6 "old" "/d/old/home/.zshrc".
Definition vim_zsh : Node := mkNode 7 "vim" "/d/vim/home/.zshrc".
Definition old_tmux : Node := mkNode 8 "old" "/d/old/home/.tmux.conf".

Definition zshrc : File := mkFile ".zshrc" "/home/u/.zshrc" [old_zsh; vim_zsh].
Definition tmuxconf : File := mkFile ".tmux.conf" "/home/u/.tmux.conf" [old_tmux].

Definition base : list (string * entry) :=
  [("/", Directory); ("/home", Directory); ("/home/u", Directory);
   ("/d/vim/home/.vimrc", Regular "set nocp");
   ("/d/alt/home/.vimrc", Regular "set nocp");
   ("/d/old/home/.vimrc", Regular "set cp");
   ("/d/bak/home/.vimrc", Regular "syntax on");
   ("/d/ghost/home/.vimrc", Symlink "/srv/gone/vimrc");
   ("/d/old/home/.zshrc", Regular "bindkey -e");
   ("/d/vim/home/.zshrc", Regular "bindkey -v");
   ("/d/old/home/.tmux.conf", Regular "set -g mouse on")].

(** No [.vimrc] in the home directory. *)
Definition w_absent : world := boot (disk base) [].

(** [.vimrc] is a regular file with the content of [vim] and [alt]. *)
Definition w_same : world :=
  boot (disk (("/home/u/.vimrc", Regular "set nocp") :: base)) [].

(** [.vimrc] is a regular file that no layer has; [lines] wait on the
    terminal. *)
Definition w_edited (lines : list string) : world :=
  boot (disk (("/home/u/.vimrc", Regular "mine") :: base)) lines.

(** [.vimrc] is the link that merging [vim] makes. *)
Definition w_linked : world :=
  boot (disk (("/home/u/.vimrc", Symlink "/d/vim/home/.vimrc") :: base)) [].

(** [.vimrc] has the content of [vim], [.tmux.conf] is a regular file
    that no layer has, [.zshrc] is not there. *)
Definition w_mixed : world :=
  boot (disk (("/home/u/.vimrc", Regular "set nocp")
              :: ("/home/u/.tmux.conf", Regular "mine") :: base)) [].

Definition layer_old : Layer :=
  mkLayer "old"
    [(vimrc [vim; old], old); (zshrc, old_zsh); (tmuxconf, old_tmux)]
    ["/d/old/merge/reload"] [].

Definition layer_vim : Layer :=
  mkLayer "vim" [(vimrc [vim; old], vim); (zshrc, vim_zsh)]
    ["/d/vim/merge/plugins"] [].

(** The layer [old] without its [.vimrc]. *)
Definition layer_rc : Layer :=
  mkLayer "old" [(zshrc, old_zsh); (tmuxconf, old_tmux)]
    ["/d/old/merge/reload"] [].

(** A copy tool that writes the content of a regular file to [dst]. *)
Definition copy_regular : Shutil :=
  fun src dst =>
    mutate (fun disk0 =>
              match OS.stat disk0 src with
              | Some (Regular content) =>
                  inr (<[Path.normpath dst := Regular content]> disk0)
              | Some Directory => inl IsADirectoryError
              | _ => inl FileNotFoundError
              end).

(** The layer [alt] supplies [.vimrc] only. *)
Definition layer_alt : Layer := mkLayer "alt" [(vimrc [vim; alt], alt)] [] [].

(** The configuration root [/d] with the layers [old] and [vim], listed
    in this order. *)
Definition walk_old_vim : Walk :=
  {| get_all_files := fun _ directory =>
       if directory =? "/d/old/home" then ["./.vimrc"; "./.zshrc"; "./.tmux.conf"]
       else if directory =? "/d/vim/home" then ["./.vimrc"; "./.zshrc"]
       else if directory =? "/d/old/merge" then ["./reload"]
       else if directory =? "/d/vim/merge" then ["./plugins"]
       else [];
     subdirectories := fun _ _ => ["old"; "vim"] |}.

(** The Node and File objects that loading [/d] with [walk_old_vim]
    makes: the layer [old] is loaded first. *)
Definition old0 : Node := mkNode 0 "old" "/d/old/home/.vimrc".
Definition old1 : Node := mkNode 1 "old" "/d/old/home/.zshrc".
Definition old2 : Node := mkNode 2 "old" "/d/old/home/.tmux.conf".
Definition vim3 : Node := mkNode 3 "vim" "/d/vim/home/.vimrc".
Definition vim4 : Node := mkNode 4 "vim" "/d/vim/home/.zshrc".

Definition loaded_vimrc : File := mkFile ".vimrc" "/home/u/.vimrc" [old0; vim3].
Definition loaded_zshrc : File := mkFile ".zshrc" "/home/u/.zshrc" [old1; vim4].
Definition loaded_tmuxconf : File :=
  mkFile ".tmux.conf" "/home/u/.tmux.conf" [old2].

Definition loaded_old : Layer :=
  mkLayer "old"
    [(loaded_vimrc, old0); (loaded_zshrc, old1); (loaded_tmuxconf, old2)]
    ["/d/old/merge/./reload"] [].

Definition loaded_vim : Layer :=
  mkLayer "vim" [(loaded_vimrc, vim3); (loaded_zshrc, vim4)]
    ["/d/vim/merge/./plugins"] [].

(** A configuration root with one layer, which supplies [.tmux.conf]. *)
Definition walk_old : Walk :=
  {| get_all_files := fun _ directory =>
       if directory =? "/d/old/home" then ["./.tmux.conf"] else [];
     subdirectories := fun _ _ => ["old"] |}.

Definition old_alone : Node := mkNode 0 "old" "/d/old/home/.tmux.conf".
Definition loaded_tmuxconf_alone : File :=
  mkFile ".tmux.conf" "/home/u/.tmux.conf" [old_alone].

(** The home directory with a [.tmux.conf] that the layer does not have. *)
Definition w_tmux : world :=
  boot (disk (("/home/u/.tmux.conf", Regular "mine") :: base)) [].

(** The world a call ends in. *)
Definition world_after {A} (o : outcome A) (otherwise : world) : world :=
  match o with
  | Returned _ w => w
  | Raised _ w => w
  | Diverged => otherwise
  end.

(** ** What a call touches *)

(** The world a call ends in, whether it returns or raises. *)
Definition ends_in {A} (o : outcome A) (w1 : world) : Prop :=
  match o with
  | Returned _ w' => w' = w1
  | Raised _ w' => w' = w1
  | Diverged => False
  end.

(** The terminal and the hooks are as before, and what was on disk
    outside the keys [ks] is still there. *)
Definition touches_only (ks : list string) (w w1 : world) : Prop :=
  same_io w w1 /\ keeps ks (fs w) (fs w1).

(** ** What the loading keeps *)

(** A File of a sound registry: its nodes are different objects of
    different layers, made before [made], and its path is in the home
    directory. *)
Definition file_sound (home : string) (made : nat) (f : File) : Prop :=
  NoDup (map node_id (nodes f)) /\
  NoDup (map layer (nodes f)) /\
  Forall (fun p => node_id p < made) (nodes f) /\
  file_path f = Path.join home (rel_path f).

(** One File for each relative path, and every File is sound. *)
Definition heap_sound (h : heap) : Prop :=
  NoDup (map rel_path (files (registry h))) /\
  Forall (file_sound (root (registry h)) (made h)) (files (registry h)).

(** The name and the node root of the layer of the directory [dir] of
    the configuration root. *)
Definition name_of (conf_root dir : string) : string :=
  Path.basename (Path.normpath (Path.join conf_root dir)).

Definition node_root_of (conf_root dir : string) : string :=
  Path.join (Path.join conf_root dir) "home".

(** The node [p] of the file [f] was made for the layer of one of the
    directories [dirs]. *)
Definition made_for (conf_root : string) (dirs : list string) (f : File)
    (p : Node) : Prop :=
  exists dir, dir ∈ dirs /\ layer p = name_of conf_root dir /\
    path p = Path.join (node_root_of conf_root dir) (rel_path f).

Definition origins (conf_root : string) (dirs : list string) (reg : Files)
    : Prop :=
  Forall (fun f => Forall (made_for conf_root dirs f) (nodes f)) (files reg).

(** [reg'] has the File objects of [reg] at their places, with the nodes
    they had. *)
Definition grows (reg reg' : Files) : Prop :=
  root reg' = root reg /\ configuration_root reg' = configuration_root reg /\
  forall i f, files reg !! i = Some f ->
    exists f', files reg' !! i = Some f' /\ rel_path f' = rel_path f /\
      forall p, p ∈ nodes f -> p ∈ nodes f'.

(** The nodes of a layer of the name [name] are nodes of the Files at
    their places. *)
Definition bound (reg : Files) (name : string) (refs : list (nat * Node))
    : Prop :=
  Forall (fun r => exists f, files reg !! fst r = Some f /\ snd r ∈ nodes f
                             /\ layer (snd r) = name) refs.

(** The lines of a layer in the output of [status], for the status [s]
    of the layer and the statuses [sts] of its nodes. *)
Definition listing (l : Layer) (s : Status) (sts : list Status) : list string :=
  "---------------------"
  :: ("[" ++ letter s ++ "] " ++ name l)
  :: map (fun x => tab ++ "[" ++ letter (snd x) ++ "] " ++ rel_path (fst (fst x)))
       (zip (layer_nodes l) sts).

(** Membership in a list that is written out. *)
Ltac in_list :=
  solve [repeat first [apply list_elem_of_here | apply list_elem_of_further]].

(** ** Lemmas on queries *)

Lemma log_nil w : log [] w = w.
Proof. destruct w; unfold log; simpl; by rewrite app_nil_r. Qed.

Lemma log_log o1 o2 w : log o2 (log o1 w) = log (o1 ++ o2)%list w.
Proof. unfold log; simpl; by rewrite app_assoc. Qed.

Lemma fs_log out w : fs (log out w) = fs w.
Proof. reflexivity. Qed.

Lemma query_ret {A} (a : A) : query (ret a).
Proof. intros d; exists (Val a), []; intros w _; by rewrite log_nil. Qed.

Lemma query_raise {A} (e : exn) : query (raise (A:=A) e).
Proof. intros d; exists (Exn e), []; intros w _; by rewrite log_nil. Qed.

Lemma query_diverge {A} : query (diverge (A:=A)).
Proof. intros d; exists Loop, []; intros w _; reflexivity. Qed.

Lemma query_ask {A} (q : filesystem -> A) : query (ask q).
Proof.
  intros d; exists (Val (q d)), []; intros w <-.
  by rewrite log_nil.
Qed.

Lemma query_attempt {A} (q : filesystem -> exn + A) : query (attempt q).
Proof.
  intros d. destruct (q d) as [e|a] eqn:E.
  - exists (Exn e), []; intros w <-. unfold attempt. by rewrite E, log_nil.
  - exists (Val a), []; intros w <-. unfold attempt. by rewrite E, log_nil.
Qed.

Lemma query_print line : query (print line).
Proof. intros d; exists (Val tt), [line]; intros w _; reflexivity. Qed.

Lemma query_bind {A B} (m : M A) (k : A -> M B) :
  query m -> (forall a, query (k a)) -> query (bind m k).
Proof.
  intros Hm Hk d. destruct (Hm d) as (r & out & Hr).
  destruct r as [a|e|].
  - destruct (Hk a d) as (r' & out' & Hr').
    exists r', (out ++ out')%list; intros w Hw.
    unfold bind. rewrite (Hr w Hw); simpl.
    rewrite (Hr' (log out w)) by (by rewrite fs_log).
    by rewrite log_log.
  - exists (Exn e), out; intros w Hw. unfold bind. by rewrite (Hr w Hw).
  - exists Loop, out; intros w Hw. unfold bind. by rewrite (Hr w Hw).
Qed.

Lemma query_try {A} (m : M A) (h : exn -> M A) :
  query m -> (forall e, query (h e)) -> query (try_ m h).
Proof.
  intros Hm Hh d. destruct (Hm d) as (r & out & Hr).
  destruct r as [a|e|].
  - exists (Val a), out; intros w Hw. unfold try_. by rewrite (Hr w Hw).
  - destruct (Hh e d) as (r' & out' & Hr').
    exists r', (out ++ out')%list; intros w Hw.
    unfold try_. rewrite (Hr w Hw); simpl.
    rewrite (Hr' (log out w)) by (by rewrite fs_log).
    by rewrite log_log.
  - exists Loop, out; intros w Hw. unfold try_. by rewrite (Hr w Hw).
Qed.

Lemma query_if {A} (b : bool) (m1 m2 : M A) :
  query m1 -> query m2 -> query (if b then m1 else m2).
Proof. by destruct b. Qed.

Section Queries.

Context {git : Git}.

Lemma query_git_diff file1 file2 : query (git_diff file1 file2).
Proof.
  unfold git_diff, Popen. apply query_bind; [apply query_attempt|].
  intros diff. apply query_try.
  - apply query_bind; [|intros; apply query_ret].
    unfold communicate. destruct diff; auto using query_ret, query_raise.
  - intros _. apply query_bind; [apply query_print|intros; apply query_ret].
Qed.

Lemma query_scan_siblings status_of self ns :
  (forall n, query (status_of n)) -> query (Node.scan_siblings status_of self ns).
Proof.
  intros Hs. induction ns as [|n rest IH]; simpl; [apply query_ret|].
  apply query_if; [|exact IH].
  apply query_bind; [apply Hs|].
  intros s. apply query_if; [apply query_ret|exact IH].
Qed.

Lemma query_Node_get_status depth f self : query (Node.get_status depth f self).
Proof.
  revert self. induction depth as [|d IH]; intros self; simpl;
    [apply query_diverge|].
  apply query_bind; [apply query_ask|]. intros present.
  apply query_if; [apply query_ret|].
  apply query_bind.
  { apply query_try; [|intros; apply query_ret].
    apply query_bind; [apply query_attempt|intros; apply query_ret]. }
  intros symlink. apply query_if; [apply query_ret|].
  apply query_bind; [apply query_git_diff|]. intros same.
  apply query_if; [apply query_ret|].
  apply query_scan_siblings, IH.
Qed.

Lemma query_Layer_get_status_loop depth status ns :
  query (Layer.get_status_loop depth status ns).
Proof.
  revert status. induction ns as [|[f n] rest IH]; intros status; simpl;
    [apply query_ret|].
  apply query_bind; [apply query_Node_get_status|].
  intros []; auto using query_ret.
Qed.

End Queries.


Lemma query_returned {A} (m : M A) w a w' :
  query m -> m w = Returned a w' ->
  exists out, w' = log out w /\
    forall w2, fs w2 = fs w -> m w2 = Returned a (log out w2).
Proof.
  intros Hq Hm. destruct (Hq (fs w)) as (r & out & Hr).
  pose proof (Hr w eq_refl) as Hw. rewrite Hm in Hw.
  destruct r; simpl in Hw; try discriminate.
  injection Hw as -> ->. exists out; split; [done|].
  intros w2 H2. by rewrite (Hr w2 H2).
Qed.

Lemma query_raised {A} (m : M A) w e w' :
  query m -> m w = Raised e w' -> exists out, w' = log out w.
Proof.
  intros Hq Hm. destruct (Hq (fs w)) as (r & out & Hr).
  pose proof (Hr w eq_refl) as Hw. rewrite Hm in Hw.
  destruct r; simpl in Hw; try discriminate.
  injection Hw as -> ->. by exists out.
Qed.

(** ** Lemmas on [Node.get_status] *)

Section StatusLemmas.

Context {git : Git}.

Lemma git_diff_eq file1 file2 w :
  git_diff file1 file2 w =
    match git_diff_no_index (fs w) file1 file2 with
    | SpawnFails => Raised FileNotFoundError w
    | Unreadable => Returned false (log ["WARNING! Could not call git diff"] w)
    | Stdout text => Returned (strip_is_empty text) w
    end.
Proof.
  unfold git_diff, Popen, bind, attempt, try_, communicate.
  by destruct (git_diff_no_index (fs w) file1 file2).
Qed.

(** The ordered decision, one call deep. *)
Lemma Node_get_status_eq d f self w :
  Node.get_status (S d) f self w =
    if negb (OS.isfile (fs w) (file_path f)) then Returned Missing w
    else if linked (fs w) f self then Returned Symlinked w
    else bind (git_diff (path self) (file_path f))
           (fun same =>
              if same then ret Identical
              else Node.scan_siblings (Node.get_status d f) self (nodes f)) w.
Proof.
  simpl. unfold bind at 1. unfold os_path_isfile, ask.
  destruct (OS.isfile (fs w) (file_path f)); simpl; [|done].
  unfold bind at 1. unfold try_, bind at 1, os_readlink, attempt, linked.
  destruct (OS.readlink (fs w) (file_path f)) as [e|dest]; simpl; [done|].
  by destruct (Path.normpath dest =? Path.normpath (path self)).
Qed.

Lemma status_Missing d f self w :
  OS.isfile (fs w) (file_path f) = false ->
  Node.get_status (S d) f self w = Returned Missing w.
Proof. intros H. by rewrite Node_get_status_eq, H. Qed.

Lemma status_Symlinked d f self w :
  OS.isfile (fs w) (file_path f) = true -> linked (fs w) f self = true ->
  Node.get_status (S d) f self w = Returned Symlinked w.
Proof. intros H1 H2. by rewrite Node_get_status_eq, H1, H2. Qed.

Lemma status_Identical d f self w :
  OS.isfile (fs w) (file_path f) = true -> linked (fs w) f self = false ->
  same_content (fs w) f self = true ->
  Node.get_status (S d) f self w = Returned Identical w.
Proof.
  intros H1 H2 H3. rewrite Node_get_status_eq, H1, H2; simpl.
  unfold bind. rewrite git_diff_eq. unfold same_content in H3.
  destruct (git_diff_no_index _ _ _); try discriminate. by rewrite H3.
Qed.

Lemma scan_siblings_answers status_of self ns w s w' :
  Node.scan_siblings status_of self ns w = Returned s w' ->
  s = Owned \/ s = Conflicted.
Proof.
  revert w. induction ns as [|n rest IH]; intros w; simpl.
  - unfold ret. intros [= <- _]. by right.
  - destruct (negb _); [|apply IH].
    unfold bind. destruct (status_of n w) as [s1 w1| |]; try discriminate.
    destruct (claims s1); [|apply IH].
    unfold ret. intros [= <- _]. by left.
Qed.

(** What an answer of [Node.get_status] says about the file system. *)
Lemma Node_get_status_inv d f self w s w' :
  Node.get_status d f self w = Returned s w' ->
  match s with
  | Missing => OS.isfile (fs w) (file_path f) = false /\ w' = w
  | Symlinked =>
      OS.isfile (fs w) (file_path f) = true /\ linked (fs w) f self = true
      /\ w' = w
  | Identical =>
      OS.isfile (fs w) (file_path f) = true /\ linked (fs w) f self = false
      /\ same_content (fs w) f self = true /\ w' = w
  | Owned | Conflicted =>
      OS.isfile (fs w) (file_path f) = true /\ linked (fs w) f self = false
      /\ differs (fs w) f self = true
  end.
Proof.
  destruct d as [|d]; [discriminate|].
  rewrite Node_get_status_eq.
  destruct (OS.isfile (fs w) (file_path f)); simpl.
  2:{ intros [= <- <-]. done. }
  destruct (linked (fs w) f self).
  { intros [= <- <-]. done. }
  unfold bind. rewrite git_diff_eq. unfold same_content, differs.
  destruct (git_diff_no_index (fs w) (path self) (file_path f)) as [| |text];
    try discriminate.
  - intros H. destruct (scan_siblings_answers _ _ _ _ _ _ H) as [-> | ->]; done.
  - destruct (strip_is_empty text).
    + intros [= <- <-]. done.
    + intros H. destruct (scan_siblings_answers _ _ _ _ _ _ H) as [-> | ->]; done.
Qed.

Lemma Node_get_status_log d f self w s w' :
  Node.get_status d f self w = Returned s w' ->
  exists out, w' = log out w /\
    forall w2, fs w2 = fs w ->
      Node.get_status d f self w2 = Returned s (log out w2).
Proof. apply query_returned, query_Node_get_status. Qed.

(** The loop waits for the first sibling it asks. *)
Lemma scan_siblings_waits status_of f self m w :
  first_sibling f self = Some m -> status_of m w = Diverged ->
  Node.scan_siblings status_of self (nodes f) w = Diverged.
Proof.
  unfold first_sibling. induction (nodes f) as [|n rest IH]; simpl; [done|].
  destruct (negb (node_id n =? node_id self)%nat).
  - intros [= ->] Hm. unfold bind. by rewrite Hm.
  - apply IH.
Qed.

(** Nodes that all reach the fourth case and ask one another first never
    answer, whatever depth is allowed. *)
Lemma Node_get_status_loops (waiting : list Node) f disk0 :
  OS.isfile disk0 (file_path f) = true ->
  Forall (fun n =>
            linked disk0 f n = false /\ differs disk0 f n = true /\
            exists m, first_sibling f n = Some m /\ m ∈ waiting) waiting ->
  forall d n w, n ∈ waiting -> fs w = disk0 ->
    Node.get_status d f n w = Diverged.
Proof.
  intros Hfile Hall. induction d as [|d IH]; intros n w Hn Hw; [done|].
  rewrite Forall_forall in Hall.
  destruct (Hall n Hn) as (Hl & Hd & m & Hm & Hin).
  subst disk0. rewrite Node_get_status_eq, Hfile, Hl; simpl.
  unfold bind. rewrite git_diff_eq. unfold differs in Hd.
  destruct (git_diff_no_index (fs w) (path n) (file_path f)) as [| |text];
    try discriminate.
  - apply (scan_siblings_waits _ _ _ m); [done|]. by apply IH.
  - apply negb_true_iff in Hd. rewrite Hd.
    apply (scan_siblings_waits _ _ _ m); [done|]. by apply IH.
Qed.

Lemma scan_siblings_Owned status_of self ns w w' :
  (forall n, query (status_of n)) ->
  Node.scan_siblings status_of self ns w = Returned Owned w' ->
  exists other s w1 w2,
    other ∈ ns /\ node_id other <> node_id self /\ fs w1 = fs w /\
    status_of other w1 = Returned s w2 /\ claims s = true.
Proof.
  intros Hq. revert w. induction ns as [|n rest IH]; intros w; simpl;
    [discriminate|].
  destruct (node_id n =? node_id self)%nat eqn:Hid; simpl.
  { intros H. destruct (IH _ H) as (o & s & w1 & w2 & Ho & ?).
    exists o, s, w1, w2. split; [by right|done]. }
  unfold bind. destruct (status_of n w) as [s1 w1| |] eqn:Hs; try discriminate.
  destruct (claims s1) eqn:Hc.
  - intros _. exists n, s1, w, w1. apply Nat.eqb_neq in Hid.
    repeat split; try done. by left.
  - intros H. destruct (IH _ H) as (o & s & w1' & w2 & Ho & Hne & Hfs & Hst & Hcl).
    destruct (query_returned _ _ _ _ (Hq n) Hs) as (out & -> & _).
    exists o, s, w1', w2. repeat split; try done. by right.
Qed.

End StatusLemmas.


(** ** Lemmas on the file system *)

Lemma keeps_refl ks disk0 : keeps ks disk0 disk0.
Proof. by intros k e _ H. Qed.

Lemma keeps_trans ks disk0 disk1 disk2 :
  keeps ks disk0 disk1 -> keeps ks disk1 disk2 -> keeps ks disk0 disk2.
Proof. intros H1 H2 k e Hk H. apply H2, H1; done. Qed.

Lemma keeps_weaken ks ks' disk0 disk1 :
  (forall k, k ∈ ks -> k ∈ ks') -> keeps ks disk0 disk1 -> keeps ks' disk0 disk1.
Proof. intros Hsub H k e Hk. apply H. intros Hin. apply Hk, Hsub, Hin. Qed.

Lemma create_inr disk0 p e disk1 :
  OS.create disk0 p e = inr disk1 ->
  disk0 !! Path.normpath p = None /\ disk1 = <[Path.normpath p := e]> disk0.
Proof.
  unfold OS.create, OS.lstat.
  destruct (disk0 !! Path.normpath p); [discriminate|].
  destruct (OS.parent_error disk0 p); [discriminate|].
  by intros [= <-].
Qed.

Lemma create_keeps disk0 p e disk1 :
  OS.create disk0 p e = inr disk1 -> keeps [] disk0 disk1.
Proof.
  intros [Hnone ->]%create_inr k e' _ Hk.
  rewrite lookup_insert_ne; [done|]. intros <-. congruence.
Qed.

Lemma remove_inr disk0 p disk1 :
  OS.remove disk0 p = inr disk1 ->
  is_Some (disk0 !! Path.normpath p) /\ disk1 = delete (Path.normpath p) disk0.
Proof.
  unfold OS.remove, OS.lstat.
  destruct (disk0 !! Path.normpath p) as [[]|]; try discriminate;
    intros [= <-]; eauto.
Qed.

Lemma mkdir_exist_ok_keeps disk0 name disk1 :
  OS.mkdir_exist_ok disk0 name = inr disk1 -> keeps [] disk0 disk1.
Proof.
  unfold OS.mkdir_exist_ok, OS.mkdir.
  destruct (OS.create disk0 name Directory) as [err|disk'] eqn:E.
  - destruct (OS.isdir disk0 name); [|discriminate].
    intros [= <-]. apply keeps_refl.
  - intros [= <-]. by apply create_keeps in E.
Qed.

Lemma makedirs_rec_keeps depth disk0 name disk1 :
  OS.makedirs_rec depth disk0 name = inr disk1 -> keeps [] disk0 disk1.
Proof.
  revert name disk1. induction depth as [|d IH]; intros name disk1; simpl.
  - destruct (Path.split name) as [head tail].
    destruct (if tail =? "" then Path.split head else (head, tail)) as [h t].
    destruct (negb (h =? "") && negb (t =? "") && negb (OS.exists_ disk0 h));
      [discriminate|apply mkdir_exist_ok_keeps].
  - destruct (Path.split name) as [head tail].
    destruct (if tail =? "" then Path.split head else (head, tail)) as [h t].
    destruct (negb (h =? "") && negb (t =? "") && negb (OS.exists_ disk0 h));
      [|apply mkdir_exist_ok_keeps].
    destruct (OS.makedirs_rec d disk0 h) as [err|disk'] eqn:E.
    + destruct err; try discriminate.
      destruct (t =? "."); [intros [= <-]; apply keeps_refl
                           |apply mkdir_exist_ok_keeps].
    + apply IH in E. destruct (t =? ".").
      * by intros [= <-].
      * intros H%mkdir_exist_ok_keeps. by eapply keeps_trans.
Qed.

Lemma makedirs_keeps disk0 name disk1 :
  OS.makedirs disk0 name = inr disk1 -> keeps [] disk0 disk1.
Proof. apply makedirs_rec_keeps. Qed.

Lemma isfile_absent disk0 p :
  disk0 !! Path.normpath p = None -> OS.isfile disk0 p = false.
Proof. unfold OS.isfile, OS.stat. simpl. by intros ->. Qed.



Section LinkLemmas.

Context {git : Git}.

Lemma linked_inv disk0 f n :
  linked disk0 f n = true ->
  exists dest, disk0 !! target_key f = Some (Symlink dest)
               /\ Path.normpath dest = source_key n.
Proof.
  unfold linked, OS.readlink, OS.lstat, target_key, source_key.
  destruct (disk0 !! Path.normpath (file_path f)) as [[]|]; try discriminate.
  intros H%String.eqb_eq. eauto.
Qed.

Lemma linked_intro disk0 f n dest :
  disk0 !! target_key f = Some (Symlink dest) ->
  Path.normpath dest = source_key n -> linked disk0 f n = true.
Proof.
  unfold linked, OS.readlink, OS.lstat, target_key, source_key.
  intros -> ->. apply String.eqb_refl.
Qed.


Lemma linked_keeps ks disk0 disk1 f n :
  keeps ks disk0 disk1 -> target_key f ∉ ks ->
  linked disk0 f n = true -> linked disk1 f n = true.
Proof.
  intros Hk Hnot (dest & Hd & He)%linked_inv.
  eapply linked_intro; [|exact He]. by apply Hk.
Qed.


End LinkLemmas.


(** ** Lemmas on the monad *)

Lemma bind_returned {A B} (m : M A) (k : A -> M B) w b w2 :
  bind m k w = Returned b w2 ->
  exists a w1, m w = Returned a w1 /\ k a w1 = Returned b w2.
Proof. unfold bind. destruct (m w) as [a w1| |]; try discriminate. eauto. Qed.

Lemma mutate_returned op w w1 :
  mutate op w = Returned tt w1 ->
  exists disk1, op (fs w) = inr disk1 /\ w1 = set_fs disk1 w.
Proof.
  unfold mutate. destruct (op (fs w)) as [e|disk1]; [discriminate|].
  intros [= <-]. eauto.
Qed.

Lemma print_returned line w w1 :
  print line w = Returned tt w1 -> w1 = log [line] w.
Proof. by intros [= <-]. Qed.

Lemma same_io_refl w : same_io w w.
Proof. by split. Qed.

Lemma same_io_trans w w1 w2 : same_io w w1 -> same_io w1 w2 -> same_io w w2.
Proof. intros [] []. split; congruence. Qed.

Lemma same_io_log out w : same_io w (log out w).
Proof. by split. Qed.

Lemma same_io_set_fs disk1 w : same_io w (set_fs disk1 w).
Proof. by split. Qed.

(** ** Lemmas on [Node.unmerge] and [Node.merge] *)

Section MutationLemmas.

Context {git : Git}.

Lemma Node_unmerge_eq d f n w s w0 :
  Node.get_status d f n w = Returned s w0 ->
  Node.unmerge d f n w =
    if unsupported s then Raised NotSupported w0
    else if decide (s = Missing) then Returned tt w0
    else bind (print ("Removing " ++ file_path f))
           (fun _ => os_remove (file_path f)) w0.
Proof.
  intros H. unfold Node.unmerge. unfold bind at 1. rewrite H.
  destruct (unsupported s); [done|]. by destruct (decide (s = Missing)).
Qed.

Lemma Node_merge_eq d f n w s w0 :
  Node.get_status d f n w = Returned s w0 ->
  Node.merge d f n w =
    if unsupported s then Raised NotSupported w0
    else if decide (s = Symlinked) then Returned tt w0
    else (let* _ := Node.unmerge d f n in
          let* _ := if decide (s = Missing)
                    then os_makedirs (Path.dirname (file_path f))
                    else ret tt in
          let* _ := print ("Symlinking " ++ file_path f ++ " -> " ++ path n) in
          os_symlink (path n) (file_path f)) w0.
Proof.
  intros H. unfold Node.merge. unfold bind at 1. rewrite H.
  destruct (unsupported s); [done|]. by destruct (decide (s = Symlinked)).
Qed.

(** A removal that returns leaves nothing at the target and touches
    nothing else. *)
Lemma Node_unmerge_returns d f n w w1 :
  Node.unmerge d f n w = Returned tt w1 ->
  same_io w w1 /\ keeps [target_key f] (fs w) (fs w1) /\
  ((OS.isfile (fs w) (file_path f) = false /\ fs w1 = fs w) \/
   (OS.isfile (fs w) (file_path f) = true /\
    fs w1 = delete (target_key f) (fs w))).
Proof.
  unfold Node.unmerge. intros (s & w0 & Hs & H)%bind_returned.
  destruct (Node_get_status_log _ _ _ _ _ _ Hs) as (out & -> & _).
  apply Node_get_status_inv in Hs.
  destruct (unsupported s) eqn:Hu; [discriminate|].
  destruct (decide (s = Missing)) as [->|Hne].
  - injection H as <-. destruct Hs as [Hs _].
    split; [apply same_io_log|]. split; [apply keeps_refl|]. by left.
  - apply bind_returned in H as ([] & w2 & ->%print_returned & H).
    unfold os_remove in H.
    apply mutate_returned in H as (disk1 & [_ ->]%remove_inr & ->).
    split; [done|]. split.
    + intros k e Hk Hl; simpl. rewrite lookup_delete_ne; [done|].
      intros <-. apply Hk. by left.
    + right. split; [|done]. destruct s; try done; apply Hs.
Qed.

(** A merge that returns leaves a link to the source at the target and
    touches nothing else that was there. *)
Lemma Node_merge_returns d f n w w1 :
  Node.merge d f n w = Returned tt w1 ->
  same_io w w1 /\ keeps [target_key f] (fs w) (fs w1) /\
  linked (fs w1) f n = true /\
  (linked (fs w) f n = true \/
   fs w1 !! target_key f = Some (Symlink (path n))).
Proof.
  unfold Node.merge. intros (s & w0 & Hs & H)%bind_returned.
  destruct (Node_get_status_log _ _ _ _ _ _ Hs) as (out & -> & _).
  apply Node_get_status_inv in Hs.
  destruct (unsupported s) eqn:Hu; [discriminate|].
  destruct (decide (s = Symlinked)) as [->|Hne].
  { injection H as <-. destruct Hs as (_ & Hl & _).
    split; [apply same_io_log|]. split; [apply keeps_refl|]. split; [done|].
    by left. }
  apply bind_returned in H as ([] & w2 & Hun & H).
  apply Node_unmerge_returns in Hun as (Hio2 & Hk2 & _).
  apply bind_returned in H as ([] & w3 & Hmk & H).
  assert (same_io w2 w3 /\ keeps [target_key f] (fs w2) (fs w3)) as [Hio3 Hk3].
  { destruct (decide (s = Missing)).
    - unfold os_makedirs in Hmk.
      apply mutate_returned in Hmk as (disk1 & Hmk%makedirs_keeps & ->).
      split; [done|]. eapply keeps_weaken; [|exact Hmk]. by intros k ?%elem_of_nil.
    - injection Hmk as <-. split; [done|apply keeps_refl]. }
  apply bind_returned in H as ([] & w4 & ->%print_returned & H).
  unfold os_symlink, OS.symlink in H.
  apply mutate_returned in H as (disk1 & [Hnone ->]%create_inr & ->).
  split; [|split; [|split]].
  - eapply same_io_trans; [apply same_io_log|].
    eapply same_io_trans; [exact Hio2|].
    eapply same_io_trans; [exact Hio3|]. done.
  - intros k e Hk Hl; simpl. rewrite lookup_insert_ne.
    + apply Hk3, Hk2; done.
    + intros <-. apply Hk. by left.
  - eapply linked_intro; [|reflexivity]. simpl. apply lookup_insert_eq.
  - right. simpl. apply lookup_insert_eq.
Qed.






End MutationLemmas.


(** ** Lemmas on the loops of [Layer.merge] *)

Section LayerMergeLemmas.

Context {git : Git}.

Lemma for_each_app {A} (xs ys : list A) (body : A -> M unit) w :
  for_each (xs ++ ys)%list body w
    = bind (for_each xs body) (fun _ => for_each ys body) w.
Proof.
  revert w. induction xs as [|x xs IH]; intros w; simpl; [done|].
  unfold bind. destruct (body x w) as [[] w'| |]; [|done|done].
  by rewrite IH.
Qed.


(** Merging nodes one after the other: the links made stay, what else
    was on disk stays. *)
Lemma merge_nodes_return d ns w w1 :
  for_each ns (fun fn => Node.merge d (fst fn) (snd fn)) w = Returned tt w1 ->
  same_io w w1 /\ keeps (targets ns) (fs w) (fs w1) /\
  (NoDup (targets ns) ->
   Forall (fun fn => linked (fs w1) (fst fn) (snd fn) = true) ns).
Proof.
  revert w. induction ns as [|[f n] ns IH]; intros w; simpl.
  { intros [= <-]. split; [apply same_io_refl|]. split; [apply keeps_refl|].
    by constructor. }
  intros ([] & w' & Hm & Hrest)%bind_returned. simpl in Hm.
  apply Node_merge_returns in Hm as (Hio & Hk & Hl & _).
  apply IH in Hrest as (Hio' & Hk' & Hall).
  split; [by eapply same_io_trans|]. split.
  - eapply keeps_trans.
    + eapply keeps_weaken; [|exact Hk].
      intros k ->%list_elem_of_singleton. by left.
    + eapply keeps_weaken; [|exact Hk']. intros k ?. by right.
  - intros [Hnot Hnd]%NoDup_cons. constructor; [|by apply Hall].
    simpl. by eapply linked_keeps.
Qed.




Lemma Layer_get_status_depth d l w s w' :
  Layer.get_status d l w = Returned s w' ->
  layer_nodes l = [] \/ exists d', d = S d'.
Proof.
  unfold Layer.get_status. destruct (layer_nodes l) as [|[f n] ns]; [by left|].
  destruct d; [discriminate|]. right; eauto.
Qed.

End LayerMergeLemmas.


(** ** Lemmas on [Layer.get_status] *)

Section LayerStatusLemmas.

Context {git : Git}.

Lemma reports_fs d w w2 fn s :
  fs w2 = fs w -> reports d w fn s -> reports d w2 fn s.
Proof.
  intros Hfs [w' H]. apply Node_get_status_log in H as (out & _ & H).
  eexists. by apply H.
Qed.

Lemma reports_functional d w fn s s' :
  reports d w fn s -> reports d w fn s' -> s = s'.
Proof. intros [w1 H1] [w2 H2]. congruence. Qed.

Lemma reports_log d w fn s :
  reports d w fn s ->
  exists out, Node.get_status d (fst fn) (snd fn) w = Returned s (log out w).
Proof.
  intros [w' H]. destruct (Node_get_status_log _ _ _ _ _ _ H) as (out & -> & _).
  eauto.
Qed.

(** The scan over nodes that are all Symlinked or Identical: the local
    variable stays, or becomes Identical. *)
Lemma Layer_get_status_loop_merged d acc pre rest w :
  Forall (merged d w) pre ->
  exists out acc',
    Layer.get_status_loop d acc (pre ++ rest)%list w
      = Layer.get_status_loop d acc' rest (log out w) /\
    (acc' = acc \/ acc' = Identical) /\
    (Exists (fun fn => reports d w fn Identical) pre -> acc' = Identical) /\
    (Forall (fun fn => reports d w fn Symlinked) pre -> acc' = acc).
Proof.
  revert acc w. induction pre as [|[f n] pre IH]; intros acc w Hall.
  { exists [], acc. rewrite log_nil. repeat split; auto.
    by intros ?%Exists_nil. }
  apply Forall_cons in Hall as [Hhead Hall].
  assert (forall out, Forall (merged d (log out w)) pre) as Hall'.
  { intros out. eapply Forall_impl; [exact Hall|].
    intros fn [H|H]; [left|right]; by apply (reports_fs d w). }
  assert (forall out (P : Status), Exists (fun fn => reports d w fn P) pre ->
            Exists (fun fn => reports d (log out w) fn P) pre) as Hex.
  { intros out P H. eapply Exists_impl; [exact H|].
    intros fn ?. by apply (reports_fs d w). }
  assert (forall out (P : Status), Forall (fun fn => reports d w fn P) pre ->
            Forall (fun fn => reports d (log out w) fn P) pre) as Hfa.
  { intros out P H. eapply Forall_impl; [exact H|].
    intros fn ?. by apply (reports_fs d w). }
  destruct Hhead as [Hs|Hi].
  - destruct (reports_log _ _ _ _ Hs) as (out & Hrun). simpl in Hrun.
    destruct (IH acc (log out w) (Hall' out)) as (out' & acc' & Heq & Hor & He & Hf).
    exists (out ++ out')%list, acc'. simpl. unfold bind at 1. rewrite Hrun.
    rewrite Heq, log_log. repeat split; auto.
    + intros [Hhd|Htl]%Exists_cons; [|by apply He, Hex].
      by pose proof (reports_functional _ _ _ _ _ Hs Hhd).
    + intros [_ Htl]%Forall_cons. by apply Hf, Hfa.
  - destruct (reports_log _ _ _ _ Hi) as (out & Hrun). simpl in Hrun.
    destruct (IH Identical (log out w) (Hall' out))
      as (out' & acc' & Heq & Hor & He & Hf).
    exists (out ++ out')%list, acc'. simpl. unfold bind at 1. rewrite Hrun.
    rewrite Heq, log_log.
    assert (acc' = Identical) as -> by (by destruct Hor).
    repeat split; auto.
    intros [Hhd _]%Forall_cons.
    by pose proof (reports_functional _ _ _ _ _ Hi Hhd).
Qed.

End LayerStatusLemmas.

(** ** The properties *)




(** C2.  A file of two layers whose target differs from both sources:
    each node reaches the fourth case and asks the other one, which asks
    back; no depth of nested calls is enough for an answer. *)
Theorem shared_conflict_never_answers (depth : nat) :
  Node.get_status (git:=git_lstat) depth (vimrc [vim; old]) vim (w_edited [])
    = Diverged /\
  Node.get_status (git:=git_lstat) depth (vimrc [vim; old]) old (w_edited [])
    = Diverged.
Proof.
  assert (forall n, n ∈ [vim; old] ->
            Node.get_status (git:=git_lstat) depth (vimrc [vim; old]) n
              (w_edited []) = Diverged) as H.
  { intros n Hn.
    apply (Node_get_status_loops [vim; old] _ (fs (w_edited [])));
      [vm_compute; reflexivity| |exact Hn|reflexivity].
    repeat constructor; try (vm_compute; reflexivity).
    - exists old. split; [reflexivity|]. in_list.
    - exists vim. split; [reflexivity|]. in_list. }
  split; apply H; in_list.
Qed.

(** C3.  The target has the content of [vim], which reports Identical;
    by the ordered decision [old], which differs, is Owned.  The loop of
    [old] asks [bak] first, [bak] asks [old] first, and [old] never
    answers. *)
Theorem owned_sibling_never_answers (depth : nat) :
  Node.get_status (git:=git_lstat) 1 (vimrc [old; bak; vim]) vim w_same
    = Returned Identical w_same /\
  Node.get_status (git:=git_lstat) depth (vimrc [old; bak; vim]) old w_same
    = Diverged.
Proof.
  split; [vm_compute; reflexivity|].
  apply (Node_get_status_loops [old; bak] _ (fs w_same));
    [vm_compute; reflexivity| |in_list|reflexivity].
  repeat constructor; try (vm_compute; reflexivity).
  - exists bak. split; [reflexivity|]. in_list.
  - exists old. split; [reflexivity|]. in_list.
Qed.

(** C4.  From Owned or Conflicted, [merge] and [unmerge] of a Node and of
    a Layer raise "Not supported" in the world the status query left:
    the file system is the one before the call (and for a Layer no hook
    was started). *)
Theorem unsupported_transitions {git : Git} d f n l w :
  (forall s w', Node.get_status d f n w = Returned s w' ->
     s = Owned \/ s = Conflicted ->
     Node.merge d f n w = Raised NotSupported w' /\
     Node.unmerge d f n w = Raised NotSupported w' /\
     fs w' = fs w)
  /\
  (forall s w', Layer.get_status d l w = Returned s w' ->
     s = Owned \/ s = Conflicted ->
     Layer.merge d l w = Raised NotSupported w' /\
     Layer.unmerge d l w = Raised NotSupported w' /\
     fs w' = fs w /\ calls w' = calls w).
Proof.
  split; intros s w' Hs Hbad.
  - rewrite (Node_merge_eq _ _ _ _ _ _ Hs), (Node_unmerge_eq _ _ _ _ _ _ Hs).
    destruct (Node_get_status_log _ _ _ _ _ _ Hs) as (out & -> & _).
    by destruct Hbad as [-> | ->].
  - unfold Layer.merge, Layer.unmerge, bind. rewrite Hs.
    destruct (query_returned _ _ _ _ (query_Layer_get_status_loop _ _ _) Hs)
      as (out & -> & _).
    by destruct Hbad as [-> | ->].
Qed.

Lemma unsupported_transitions_witness :
  (Node.merge (git:=git_lstat) 1 (vimrc [vim]) vim (w_edited [])
     = Raised NotSupported (w_edited []) /\
   Node.unmerge (git:=git_lstat) 1 (vimrc [vim]) vim (w_edited [])
     = Raised NotSupported (w_edited []) /\
   fs (w_edited []) = fs (w_edited []))
  /\
  (Layer.merge (git:=git_lstat) 2 layer_old w_same = Raised NotSupported w_same /\
   Layer.unmerge (git:=git_lstat) 2 layer_old w_same = Raised NotSupported w_same /\
   fs w_same = fs w_same /\ calls w_same = calls w_same).
Proof.
  split.
  - apply (proj1 (unsupported_transitions (git:=git_lstat) 1 (vimrc [vim]) vim
                    layer_old (w_edited [])) Conflicted (w_edited []));
      [vm_compute; reflexivity | right; reflexivity].
  - apply (proj2 (unsupported_transitions (git:=git_lstat) 2 (vimrc [vim]) vim
                    layer_old w_same) Owned w_same);
      [vm_compute; reflexivity | left; reflexivity].
Defined.



(** The last part of the statement above needs its condition: the
    source of [ghost] is a link to a file that is gone.  [merge] returns
    and leaves a link at the target; [unmerge] finds the status Missing
    and removes nothing, and the link, which leads nowhere, stays. *)
Remark unmerge_leaves_dangling_link :
  Node.get_status (git:=git_lstat) 1 (vimrc [ghost]) ghost w_absent
    = Returned Missing w_absent /\
  exists w1,
    Node.merge (git:=git_lstat) 1 (vimrc [ghost]) ghost w_absent = Returned tt w1 /\
    Node.unmerge (git:=git_lstat) 1 (vimrc [ghost]) ghost w1 = Returned tt w1 /\
    fs w1 !! "/home/u/.vimrc" = Some (Symlink "/d/ghost/home/.vimrc").
Proof.
  split; [vm_compute; reflexivity|].
  eexists. repeat split; vm_compute; reflexivity.
Qed.




(** C7.  [git_diff] raises when the process cannot be started: [Popen]
    stands before the [try], no warning is printed and nothing is
    returned.  Only what fails inside the [try] (reading and decoding the
    output) gives the warning and [False]; otherwise the answer is
    whether the output is blank, and it is blank too when git cannot
    access one of the paths: a source that is not there compares equal
    to the target. *)
Theorem git_diff_outcomes {git : Git} file1 file2 w :
  git_diff (git:=git_absent) file1 file2 w = Raised FileNotFoundError w
  /\
  match git_diff_no_index (fs w) file1 file2 with
  | SpawnFails => git_diff file1 file2 w = Raised FileNotFoundError w
  | Unreadable =>
      git_diff file1 file2 w
        = Returned false (log ["WARNING! Could not call git diff"] w)
  | Stdout text => git_diff file1 file2 w = Returned (strip_is_empty text) w
  end
  /\
  git_diff (git:=git_lstat) "/d/none/home/.vimrc" "/home/u/.vimrc" w_same
    = Returned true w_same.
Proof.
  split; [reflexivity|]. split; [|vm_compute; reflexivity].
  rewrite git_diff_eq. by destruct (git_diff_no_index (fs w) file1 file2).
Qed.

(** C8.  [Layer.get_status] over the nodes in order: the first node that
    is not Symlinked or Identical decides, Missing for Missing or
    Conflicted and Owned for Owned; when all are Symlinked or Identical
    the answer is Identical if one is and Symlinked if all are
    Symlinked.  A layer of one Missing and one Identical node, in either
    order, is Missing. *)
Theorem Layer_get_status_scan {git : Git} d l w :
  (forall pre fn post s,
     layer_nodes l = (pre ++ fn :: post)%list ->
     Forall (merged d w) pre -> reports d w fn s ->
     (s = Missing \/ s = Conflicted ->
      exists out, Layer.get_status d l w = Returned Missing (log out w)) /\
     (s = Owned ->
      exists out, Layer.get_status d l w = Returned Owned (log out w)))
  /\
  (Forall (merged d w) (layer_nodes l) ->
   Exists (fun fn => reports d w fn Identical) (layer_nodes l) ->
   exists out, Layer.get_status d l w = Returned Identical (log out w))
  /\
  (Forall (fun fn => reports d w fn Symlinked) (layer_nodes l) ->
   exists out, Layer.get_status d l w = Returned Symlinked (log out w))
  /\
  (forall a b,
     layer_nodes l = [a; b] ->
     (reports d w a Missing /\ reports d w b Identical) \/
     (reports d w a Identical /\ reports d w b Missing) ->
     exists out, Layer.get_status d l w = Returned Missing (log out w)).
Proof.
  assert (forall pre fn post s,
            layer_nodes l = (pre ++ fn :: post)%list ->
            Forall (merged d w) pre -> reports d w fn s ->
            unsupported s = true \/ s = Missing ->
            exists out, Layer.get_status d l w
                        = Returned (if decide (s = Owned) then Owned else Missing)
                            (log out w)) as Hstop.
  { intros pre [f n] post s Hl Hpre Hfn Hs. unfold Layer.get_status. rewrite Hl.
    destruct (Layer_get_status_loop_merged d Symlinked pre ((f, n) :: post) w Hpre)
      as (out & acc' & -> & _).
    apply (reports_fs _ _ (log out w)) in Hfn; [|done].
    destruct (reports_log _ _ _ _ Hfn) as (out' & Hrun). simpl in Hrun.
    exists (out ++ out')%list. simpl. unfold bind. rewrite Hrun, log_log.
    destruct Hs as [Hs| ->]; [|done]. by destruct s. }
  split; [|split; [|split]].
  - intros pre fn post s Hl Hpre Hfn. split.
    + intros Hs. destruct (Hstop pre fn post s Hl Hpre Hfn) as [out Hout].
      { destruct Hs as [-> | ->]; auto. }
      exists out. rewrite Hout. by destruct Hs as [-> | ->].
    + intros ->. destruct (Hstop pre fn post Owned Hl Hpre Hfn) as [out Hout];
        [by left|]. by exists out.
  - intros Hall Hex. unfold Layer.get_status.
    destruct (Layer_get_status_loop_merged d Symlinked (layer_nodes l) [] w Hall)
      as (out & acc' & Heq & _ & He & _).
    rewrite app_nil_r in Heq. rewrite Heq, (He Hex). by exists out.
  - intros Hall. unfold Layer.get_status.
    assert (Forall (merged d w) (layer_nodes l)) as Hm
      by (eapply Forall_impl; [exact Hall|]; by left).
    destruct (Layer_get_status_loop_merged d Symlinked (layer_nodes l) [] w Hm)
      as (out & acc' & Heq & _ & _ & Hf).
    rewrite app_nil_r in Heq. rewrite Heq, (Hf Hall). by exists out.
  - intros a b Hl [[Ha Hb]|[Ha Hb]].
    + destruct (Hstop [] a [b] Missing Hl (Forall_nil_2 _) Ha) as [out Hout];
        [by right|]. by exists out.
    + destruct (Hstop [a] b [] Missing Hl) as [out Hout]; [|done|by right|].
      * constructor; [by right|constructor].
      * by exists out.
Qed.

Lemma Layer_get_status_scan_witness :
  exists out,
    Layer.get_status (git:=git_lstat) 1 layer_vim w_same
      = Returned Missing (log out w_same).
Proof.
  apply (proj2 (proj2 (proj2
           (Layer_get_status_scan (git:=git_lstat) 1 layer_vim w_same)))
           (vimrc [vim; old], vim) (zshrc, vim_zsh) eq_refl).
  right. split; eexists; vm_compute; reflexivity.
Defined.




(** C10 (as amended).  A layer whose aggregate status is Missing, whose
    nodes before [bad] merge one after the other, and whose node [bad]
    is then Owned or Conflicted: [merge] raises "Not supported" at [bad];
    no hook was started, nothing that was on disk outside the targets of
    the merged nodes is changed, and the links of the merged nodes are
    there. *)
Theorem Layer_merge_stops_halfway {git : Git} d l pre bad post w w0 w1 s w2 :
  layer_nodes l = (pre ++ bad :: post)%list ->
  Layer.get_status d l w = Returned Missing w0 ->
  for_each pre (fun fn => Node.merge d (fst fn) (snd fn))
    (log ["Merging " ++ name l ++ "..."] w0) = Returned tt w1 ->
  Node.get_status d (fst bad) (snd bad) w1 = Returned s w2 ->
  s = Owned \/ s = Conflicted ->
  Layer.merge d l w = Raised NotSupported w2 /\
  calls w2 = calls w /\
  keeps (targets pre) (fs w) (fs w2) /\
  (NoDup (targets pre) ->
   Forall (fun fn => linked (fs w2) (fst fn) (snd fn) = true) pre).
Proof.
  intros Hl Hs Hpre Hbad Hbads.
  destruct (query_returned _ _ _ _ (query_Layer_get_status_loop _ _ _) Hs)
    as (out & -> & _).
  destruct (Node_get_status_log _ _ _ _ _ _ Hbad) as (out2 & -> & _).
  split.
  - unfold Layer.merge. unfold bind at 1. rewrite Hs. simpl.
    unfold bind at 1. simpl. unfold bind at 1. rewrite Hl, for_each_app.
    unfold bind at 1. rewrite Hpre. simpl. unfold bind at 1.
    rewrite (Node_merge_eq _ _ _ _ _ _ Hbad).
    by destruct Hbads as [-> | ->].
  - apply merge_nodes_return in Hpre as ([_ Hc] & Hk & Hlinks). simpl in *.
    split; [done|]. split; [done|]. exact Hlinks.
Qed.

Lemma Layer_merge_stops_halfway_witness :
  Layer.merge (git:=git_lstat) 1 layer_rc w_mixed
    = Raised NotSupported
        (world_after (Layer.merge (git:=git_lstat) 1 layer_rc w_mixed) w_mixed)
  /\
  calls (world_after (Layer.merge (git:=git_lstat) 1 layer_rc w_mixed) w_mixed)
    = calls w_mixed
  /\
  keeps (targets [(zshrc, old_zsh)]) (fs w_mixed)
    (fs (world_after (Layer.merge (git:=git_lstat) 1 layer_rc w_mixed) w_mixed))
  /\
  (NoDup (targets [(zshrc, old_zsh)]) ->
   Forall (fun fn =>
             linked
               (fs (world_after (Layer.merge (git:=git_lstat) 1 layer_rc w_mixed)
                      w_mixed))
               (fst fn) (snd fn) = true)
     [(zshrc, old_zsh)]).
Proof.
  apply (Layer_merge_stops_halfway (git:=git_lstat) 1 layer_rc
           [(zshrc, old_zsh)] (tmuxconf, old_tmux) [] w_mixed w_mixed
           (world_after (Layer.merge (git:=git_lstat) 1 layer_rc w_mixed) w_mixed)
           Conflicted);
    [reflexivity | vm_compute; reflexivity | vm_compute; reflexivity
    | vm_compute; reflexivity | right; reflexivity].
Defined.

(** C10, as stated, fails: in the layer [old] the Missing node of
    [.zshrc] stands before the Conflicted node of [.tmux.conf], but its
    first node is Owned: the aggregate status is Owned, not Missing, and
    [merge] raises before it merges any node. *)
Lemma Owned_first_blocks_merge :
  reports (git:=git_lstat) 2 w_mixed (zshrc, old_zsh) Missing /\
  reports (git:=git_lstat) 2 w_mixed (tmuxconf, old_tmux) Conflicted /\
  Layer.get_status (git:=git_lstat) 2 layer_old w_mixed = Returned Owned w_mixed /\
  Layer.merge (git:=git_lstat) 2 layer_old w_mixed = Raised NotSupported w_mixed.
Proof.
  repeat split; try (vm_compute; reflexivity); eexists; vm_compute; reflexivity.
Qed.

(** ** Further properties: the status queries *)

Lemma query_read_only {A} (m : M A) w :
  query m ->
  (forall a w', m w = Returned a w' ->
     fs w' = fs w /\ same_io w w' /\
     forall w2, fs w2 = fs w ->
       exists w2', m w2 = Returned a w2' /\ fs w2' = fs w2 /\ same_io w2 w2')
  /\
  (forall e w', m w = Raised e w' -> fs w' = fs w /\ same_io w w').
Proof.
  intros Hq. split.
  - intros a w' Hm. destruct (query_returned _ _ _ _ Hq Hm) as (out & -> & Hall).
    repeat split. intros w2 H2. exists (log out w2). by rewrite (Hall w2 H2).
  - intros e w' Hm. destruct (query_raised _ _ _ _ Hq Hm) as (out & ->).
    by repeat split.
Qed.

(** X1.  A status query of a Node or of a Layer reads the file system
    and nothing else: whether it returns or raises, the file system, the
    terminal and the hooks are as before, and in every world with the
    same file system it gives the same answer. *)
Theorem status_queries_read_only {git : Git} d f n l w :
  ((forall s w', Node.get_status d f n w = Returned s w' ->
      fs w' = fs w /\ same_io w w' /\
      forall w2, fs w2 = fs w ->
        exists w2', Node.get_status d f n w2 = Returned s w2'
                    /\ fs w2' = fs w2 /\ same_io w2 w2')
   /\
   (forall e w', Node.get_status d f n w = Raised e w' ->
      fs w' = fs w /\ same_io w w'))
  /\
  ((forall s w', Layer.get_status d l w = Returned s w' ->
      fs w' = fs w /\ same_io w w' /\
      forall w2, fs w2 = fs w ->
        exists w2', Layer.get_status d l w2 = Returned s w2'
                    /\ fs w2' = fs w2 /\ same_io w2 w2')
   /\
   (forall e w', Layer.get_status d l w = Raised e w' ->
      fs w' = fs w /\ same_io w w')).
Proof.
  split.
  - apply query_read_only, query_Node_get_status.
  - apply query_read_only, query_Layer_get_status_loop.
Qed.

Lemma status_queries_read_only_witness :
  exists w2',
    Layer.get_status (git:=git_lstat) 2 layer_old (boot (fs w_same) ["no"])
      = Returned Owned w2'
    /\ fs w2' = fs (boot (fs w_same) ["no"])
    /\ same_io (boot (fs w_same) ["no"]) w2'.
Proof.
  apply (proj2 (proj2 (proj1 (proj2
           (status_queries_read_only (git:=git_lstat) 2 (vimrc [vim]) vim
              layer_old w_same)) Owned w_same
           ltac:(vm_compute; reflexivity)))).
  reflexivity.
Defined.

Section SiblingLemmas.

Context {git : Git}.

Lemma scan_siblings_Conflicted status_of self ns w w' :
  (forall n, query (status_of n)) ->
  Node.scan_siblings status_of self ns w = Returned Conflicted w' ->
  forall m, m ∈ ns -> node_id m <> node_id self ->
    exists s w1 w2,
      fs w1 = fs w /\ status_of m w1 = Returned s w2 /\ claims s = false.
Proof.
  intros Hq. revert w. induction ns as [|n rest IH]; intros w H m Hm Hne.
  { by apply elem_of_nil in Hm. }
  simpl in H. destruct (node_id n =? node_id self)%nat eqn:Hid; simpl in H.
  { apply elem_of_cons in Hm as [->|Hm].
    - apply Nat.eqb_eq in Hid. done.
    - by apply (IH w). }
  apply bind_returned in H as (s1 & w1 & Hs & H).
  destruct (claims s1) eqn:Hc; [discriminate|].
  apply elem_of_cons in Hm as [->|Hm].
  - by exists s1, w, w1.
  - destruct (query_returned _ _ _ _ (Hq n) Hs) as (out & -> & _).
    destruct (IH _ H m Hm Hne) as (s & wa & wb & Hfs & Hrun & Hcl).
    by exists s, wa, wb.
Qed.

Lemma Owned_claimant d f n w w' :
  Node.get_status d f n w = Returned Owned w' ->
  exists c s wa wb,
    c ∈ nodes f /\ node_id c <> node_id n /\ fs wa = fs w /\
    Node.get_status (pred d) f c wa = Returned s wb /\ claims s = true.
Proof.
  destruct d as [|d]; [discriminate|]. rewrite Node_get_status_eq.
  destruct (negb (OS.isfile (fs w) (file_path f))); [discriminate|].
  destruct (linked (fs w) f n); [discriminate|].
  intros (same & w0 & Hdiff & H)%bind_returned.
  destruct same; [discriminate|].
  destruct (query_returned _ _ _ _ (query_git_diff _ _) Hdiff) as (out & -> & _).
  apply scan_siblings_Owned in H; [|intros; apply query_Node_get_status].
  destruct H as (o & s & wa & wb & ? & ? & ? & ? & ?).
  by exists o, s, wa, wb.
Qed.

(** A node that claims does so at every depth and in every world with
    the same file system. *)
Lemma claim_at_any_depth d d' f c w w' wb s :
  Node.get_status d f c w = Returned s wb -> claims s = true ->
  fs w' = fs w ->
  Node.get_status (S d') f c w' = Returned s w'.
Proof.
  intros Hs Hc Hfs. apply Node_get_status_inv in Hs.
  destruct s; try discriminate.
  - destruct Hs as (H1 & H2 & _). apply status_Symlinked; by rewrite Hfs.
  - destruct Hs as (H1 & H2 & H3 & _). apply status_Identical; by rewrite Hfs.
Qed.

Lemma same_content_differs disk0 f n :
  same_content disk0 f n = true -> differs disk0 f n = true -> False.
Proof.
  unfold same_content, differs.
  destruct (git_diff_no_index disk0 (path n) (file_path f)); try discriminate.
  by intros ->.
Qed.

Lemma node_of_id (ns : list Node) a b :
  NoDup (map node_id ns) -> a ∈ ns -> b ∈ ns -> node_id a = node_id b -> a = b.
Proof.
  induction ns as [|x ns IH]; [by intros _ ?%elem_of_nil|].
  simpl. intros [Hnot Hnd]%NoDup_cons Ha Hb Hid.
  apply elem_of_cons in Ha as [->|Ha]; apply elem_of_cons in Hb as [->|Hb].
  - done.
  - exfalso. apply Hnot. rewrite Hid. apply list_elem_of_fmap. eauto.
  - exfalso. apply Hnot. rewrite <- Hid. apply list_elem_of_fmap. eauto.
  - by apply IH.
Qed.

Lemma Conflicted_alone f :
  NoDup (map node_id (nodes f)) ->
  forall d n w w', n ∈ nodes f ->
    Node.get_status d f n w = Returned Conflicted w' ->
    forall m, m ∈ nodes f -> node_id m = node_id n.
Proof.
  intros Hnd. induction d as [|d IH]; intros n w w' Hn H m Hm; [discriminate|].
  destruct (decide (node_id m = node_id n)) as [|Hne]; [done|exfalso].
  pose proof (Node_get_status_inv _ _ _ _ _ _ H) as (Hfile & Hl & Hd).
  rewrite Node_get_status_eq, Hfile, Hl in H. simpl in H.
  apply bind_returned in H as (same & w0 & Hdiff & H).
  destruct (query_returned _ _ _ _ (query_git_diff _ _) Hdiff) as (out & -> & _).
  destruct same; [discriminate|].
  assert (forall x, query (Node.get_status d f x)) as Hq
    by (intros; apply query_Node_get_status).
  destruct (scan_siblings_Conflicted _ _ _ _ _ Hq H m Hm Hne)
    as (s & w1 & w2 & Hfs & Hrun & Hcl).
  destruct s; try discriminate.
  - apply Node_get_status_inv in Hrun as [Hgone _].
    rewrite Hfs in Hgone. simpl in Hgone. congruence.
  - destruct (Owned_claimant _ _ _ _ _ Hrun)
      as (c & s' & wa & wb & Hc & Hcm & Hfa & Hcrun & Hclaims).
    destruct (decide (node_id c = node_id n)) as [Hcn|Hcn].
    + assert (c = n) as -> by (by apply (node_of_id (nodes f))).
      apply Node_get_status_inv in Hcrun.
      rewrite Hfa, Hfs in Hcrun. simpl in Hcrun.
      destruct s'; try discriminate.
      * destruct Hcrun as (_ & Hl' & _). congruence.
      * destruct Hcrun as (_ & _ & Hsame & _).
        by apply (same_content_differs _ _ _ Hsame).
    + destruct (scan_siblings_Conflicted _ _ _ _ _ Hq H c Hc Hcn)
        as (sc & wc & wc' & Hfc & Hcr & Hccl).
      destruct d as [|d']; [discriminate|].
      rewrite (claim_at_any_depth _ d' _ _ _ wc _ _ Hcrun Hclaims) in Hcr.
      * injection Hcr as <- _. congruence.
      * rewrite Hfc, Hfa, Hfs. done.
  - apply Hne. symmetry. by apply (IH m w1 w2 Hm Hrun n).
Qed.

End SiblingLemmas.

Lemma Conflicted_only_node {git : Git} d f self w w' :
  NoDup (map node_id (nodes f)) ->
  self ∈ nodes f ->
  Node.get_status d f self w = Returned Conflicted w' ->
  nodes f = [self].
Proof.
  intros Hnd Hself H.
  assert (forall m, m ∈ nodes f -> m = self) as Hall.
  { intros m Hm. apply (node_of_id (nodes f)); try done.
    by apply (Conflicted_alone f Hnd d self w w'). }
  destruct (nodes f) as [|a [|b rest]] eqn:E.
  - by apply elem_of_nil in Hself.
  - by rewrite (Hall a) by (by left).
  - exfalso. simpl in Hnd. apply NoDup_cons in Hnd as [Hnot _].
    apply Hnot. rewrite (Hall a), (Hall b); [by left| right; by left| by left].
Qed.

(** X2.  Conflicted is an answer for a file of one layer only: when the
    nodes of a file are different objects and one of them reports
    Conflicted, the file has no other node.  (With siblings the call
    answers Owned or does not come back.) *)
Theorem Conflicted_has_no_sibling {git : Git} d f self w w' :
  NoDup (map node_id (nodes f)) ->
  self ∈ nodes f ->
  Node.get_status d f self w = Returned Conflicted w' ->
  nodes f = [self].
Proof. apply Conflicted_only_node. Qed.

Lemma Conflicted_has_no_sibling_witness : nodes (vimrc [vim]) = [vim].
Proof.
  apply (Conflicted_has_no_sibling (git:=git_lstat) 1 (vimrc [vim]) vim
           (w_edited []) (w_edited [])).
  - apply (bool_decide_unpack _). vm_compute. reflexivity.
  - in_list.
  - vm_compute. reflexivity.
Defined.

Section ClaimantLemmas.

Context {git : Git}.

Lemma scan_siblings_first_claims status_of f self m w s w' :
  first_sibling f self = Some m ->
  status_of m w = Returned s w' -> claims s = true ->
  Node.scan_siblings status_of self (nodes f) w = Returned Owned w'.
Proof.
  unfold first_sibling. induction (nodes f) as [|n rest IH]; simpl; [done|].
  destruct (negb (node_id n =? node_id self)%nat).
  - intros [= ->] Hm Hc. unfold bind. by rewrite Hm, Hc.
  - apply IH.
Qed.

End ClaimantLemmas.

(** X3.  A node in the fourth case whose first sibling in [file.nodes]
    is linked or identical answers Owned, two calls deep. *)
Theorem first_claimant_gives_Owned {git : Git} d f self m w :
  OS.isfile (fs w) (file_path f) = true ->
  linked (fs w) f self = false ->
  differs (fs w) f self = true ->
  first_sibling f self = Some m ->
  linked (fs w) f m = true \/ same_content (fs w) f m = true ->
  exists out, Node.get_status (S (S d)) f self w = Returned Owned (log out w).
Proof.
  intros Hfile Hl Hd Hm Hclaims.
  assert (forall w0, fs w0 = fs w ->
            exists s, Node.get_status (S d) f m w0 = Returned s w0
                      /\ claims s = true) as Hrun.
  { intros w0 Hfs. destruct (linked (fs w) f m) eqn:Hlm.
    - exists Symlinked. split; [|done]. apply status_Symlinked; by rewrite Hfs.
    - destruct Hclaims as [|Hsame]; [done|]. exists Identical. split; [|done].
      apply status_Identical; by rewrite Hfs. }
  rewrite Node_get_status_eq, Hfile, Hl. simpl. unfold bind.
  rewrite git_diff_eq. unfold differs in Hd.
  destruct (git_diff_no_index (fs w) (path self) (file_path f)) as [| |text];
    try discriminate.
  - destruct (Hrun (log ["WARNING! Could not call git diff"] w) eq_refl)
      as (s & Hs & Hc).
    eexists. by eapply scan_siblings_first_claims.
  - apply negb_true_iff in Hd. rewrite Hd.
    destruct (Hrun w eq_refl) as (s & Hs & Hc).
    exists []. rewrite log_nil. by eapply scan_siblings_first_claims.
Qed.

Lemma first_claimant_gives_Owned_witness :
  exists out,
    Node.get_status (git:=git_lstat) 2 (vimrc [vim; old]) old w_linked
      = Returned Owned (log out w_linked).
Proof.
  apply (first_claimant_gives_Owned (git:=git_lstat) 0 (vimrc [vim; old]) old vim
           w_linked); try (vm_compute; reflexivity).
  left. vm_compute. reflexivity.
Defined.

(** ** Further properties: what the mutations touch *)

Lemma bind_ends {A B} (m : M A) (k : A -> M B) w w2 :
  ends_in (bind m k w) w2 ->
  (exists e, m w = Raised e w2) \/
  (exists a w1, m w = Returned a w1 /\ ends_in (k a w1) w2).
Proof.
  unfold bind. destruct (m w) as [a w1|e w1|]; simpl; [|intros <-|done]; eauto.
Qed.

Lemma touches_only_refl ks w : touches_only ks w w.
Proof. split; [apply same_io_refl|apply keeps_refl]. Qed.

Lemma touches_only_trans ks w w1 w2 :
  touches_only ks w w1 -> touches_only ks w1 w2 -> touches_only ks w w2.
Proof.
  intros [] []. split; [by eapply same_io_trans|by eapply keeps_trans].
Qed.

Lemma touches_only_weaken ks ks' w w1 :
  (forall k, k ∈ ks -> k ∈ ks') -> touches_only ks w w1 -> touches_only ks' w w1.
Proof. intros Hsub [? ?]. split; [done|by eapply keeps_weaken]. Qed.

Lemma touches_only_log ks out w : touches_only ks w (log out w).
Proof. split; [apply same_io_log|apply keeps_refl]. Qed.



Lemma delete_keeps k (disk0 : filesystem) : keeps [k] disk0 (delete k disk0).
Proof.
  intros k' e Hk Hl. rewrite lookup_delete_ne; [done|].
  intros <-. apply Hk. by left.
Qed.

Section FrameLemmas.

Context {git : Git}.

Lemma Node_unmerge_ends d f n w w1 :
  ends_in (Node.unmerge d f n w) w1 ->
  touches_only [target_key f] w w1 /\ fs w1 ⊆ fs w.
Proof.
  unfold Node.unmerge. intros [[e He]|(s & w0 & Hs & H)]%bind_ends.
  { destruct (query_raised _ _ _ _ (query_Node_get_status _ _ _) He) as (out & ->).
    split; [apply touches_only_log|done]. }
  destruct (Node_get_status_log _ _ _ _ _ _ Hs) as (out & -> & _).
  destruct (unsupported s).
  { simpl in H. subst w1. split; [apply touches_only_log|done]. }
  destruct (decide (s = Missing)).
  { simpl in H. subst w1. split; [apply touches_only_log|done]. }
  apply bind_ends in H as [[e He]|([] & w2 & ->%print_returned & H)];
    [discriminate|].
  unfold os_remove, mutate, OS.remove, OS.lstat in H. simpl in H.
  destruct (fs w !! Path.normpath (file_path f)) as [[]|]; simpl in H; subst w1;
    try (split; [split; [done|apply keeps_refl]|done]);
    (split; [split; [done|apply delete_keeps]|apply delete_subseteq]).
Qed.


End FrameLemmas.

Lemma follow_mono hops (disk1 disk0 : filesystem) k content :
  disk1 ⊆ disk0 ->
  OS.follow hops disk1 k = Some (Regular content) ->
  OS.follow hops disk0 k = Some (Regular content).
Proof.
  intros Hsub. revert k. induction hops as [|h IH]; intros k; simpl.
  - destruct (disk1 !! k) as [e|] eqn:E; [|done].
    rewrite (lookup_weaken _ _ _ _ E Hsub). by destruct e.
  - destruct (disk1 !! k) as [e|] eqn:E; [|done].
    rewrite (lookup_weaken _ _ _ _ E Hsub). destruct e; try done. apply IH.
Qed.

Lemma isfile_mono (disk1 disk0 : filesystem) p :
  disk1 ⊆ disk0 -> OS.isfile disk0 p = false -> OS.isfile disk1 p = false.
Proof.
  unfold OS.isfile, OS.stat. intros Hsub H0.
  destruct (OS.follow OS.MAXSYMLINKS disk1 (Path.normpath p)) as [[c| |]|] eqn:E;
    try done.
  by rewrite (follow_mono _ _ _ _ _ Hsub E) in H0.
Qed.

Lemma for_each_ends {A} (R : world -> world -> Prop) (body : A -> M unit) xs :
  (forall w, R w w) -> (forall w w1 w2, R w w1 -> R w1 w2 -> R w w2) ->
  (forall x w w1, x ∈ xs -> ends_in (body x w) w1 -> R w w1) ->
  forall w w1, ends_in (for_each xs body w) w1 -> R w w1.
Proof.
  intros Hrefl Htrans. induction xs as [|x xs IH]; intros Hbody w w1; simpl.
  { intros <-. apply Hrefl. }
  intros [[e He]|([] & w2 & Hx & H)]%bind_ends.
  - apply (Hbody x); [by left|]. by rewrite He.
  - apply (Htrans _ w2).
    + apply (Hbody x); [by left|]. by rewrite Hx.
    + apply IH; [|done]. intros y wa wb Hy. apply Hbody. by right.
Qed.


Section LayerFrameLemmas.

Context {git : Git}.

Lemma target_in_targets (ns : list (File * Node)) fn :
  fn ∈ ns -> target_key (fst fn) ∈ targets ns.
Proof. intros H. unfold targets. apply list_elem_of_fmap. eauto. Qed.


Lemma unmerge_nodes_ends d ns w w1 :
  ends_in (for_each ns (fun fn => Node.unmerge d (fst fn) (snd fn)) w) w1 ->
  touches_only (targets ns) w w1 /\ fs w1 ⊆ fs w.
Proof.
  apply (for_each_ends
           (fun w w1 => touches_only (targets ns) w w1 /\ fs w1 ⊆ fs w)).
  - intros; split; [apply touches_only_refl|done].
  - intros wa wb wc [? ?] [? ?].
    split; [by eapply touches_only_trans|by etrans].
  - intros fn wa wb Hfn [H Hsub]%Node_unmerge_ends. split; [|done].
    eapply touches_only_weaken; [|exact H].
    intros k ->%list_elem_of_singleton. by apply target_in_targets.
Qed.

(** After the nodes are unmerged one after the other no target is a
    file. *)
Lemma unmerge_nodes_return d ns w w1 :
  for_each ns (fun fn => Node.unmerge d (fst fn) (snd fn)) w = Returned tt w1 ->
  Forall (fun fn => OS.isfile (fs w1) (file_path (fst fn)) = false) ns.
Proof.
  revert w. induction ns as [|[f n] ns IH]; intros w; simpl; [by constructor|].
  intros ([] & w2 & Hx & H)%bind_returned. simpl in Hx. constructor.
  - simpl. apply (isfile_mono _ (fs w2)).
    + apply (unmerge_nodes_ends d ns w2 w1). by rewrite H.
    + apply Node_unmerge_returns in Hx as (_ & _ & [[Hf Hfs]|[_ Hfs]]).
      * by rewrite Hfs.
      * rewrite Hfs. apply isfile_absent, lookup_delete_eq.
  - by apply (IH w2).
Qed.

End LayerFrameLemmas.



Section LayerEndsLemmas.

Context {git : Git}.



Lemma Layer_unmerge_ends d l w w1 :
  ends_in (Layer.unmerge d l w) w1 ->
  touches_only (targets (layer_nodes l)) w w1 /\ fs w1 ⊆ fs w.
Proof.
  unfold Layer.unmerge. intros [[e He]|(s & w0 & Hs & H)]%bind_ends.
  { destruct (query_raised _ _ _ _ (query_Layer_get_status_loop _ _ _) He)
      as (out & ->).
    split; [apply touches_only_log|done]. }
  destruct (query_returned _ _ _ _ (query_Layer_get_status_loop _ _ _) Hs)
    as (out & -> & _).
  destruct (unsupported s);
    [simpl in H; subst; split; [apply touches_only_log|done]|].
  destruct (decide (s = Missing));
    [simpl in H; subst; split; [apply touches_only_log|done]|].
  apply bind_ends in H as [[e He]|([] & w2 & ->%print_returned & H)];
    [discriminate|].
  apply unmerge_nodes_ends in H as [[[Hin Hc] Hk] Hsub].
  split; [|done]. split; [split|]; simpl in *; done.
Qed.

End LayerEndsLemmas.





(** X7.  [Layer.unmerge] starts no hook and only removes.  From the
    aggregate status Missing it changes nothing, also when some nodes of
    the layer are linked; from Symlinked or Identical, when it returns,
    no target of the layer is a file and a layer with a node is
    Missing. *)
Theorem Layer_unmerge_effect {git : Git} d l w w1 :
  Layer.unmerge d l w = Returned tt w1 ->
  fs w1 ⊆ fs w /\ same_io w w1 /\
  ((exists w0, Layer.get_status d l w = Returned Missing w0) /\ fs w1 = fs w
   \/
   (exists s w0, Layer.get_status d l w = Returned s w0 /\ s <> Missing) /\
   Forall (fun fn => OS.isfile (fs w1) (file_path (fst fn)) = false)
     (layer_nodes l) /\
   (layer_nodes l <> [] -> Layer.get_status d l w1 = Returned Missing w1)).
Proof.
  intros H.
  destruct (Layer_unmerge_ends d l w w1) as [[Hio _] Hsub]; [by rewrite H|].
  split; [done|]. split; [done|].
  unfold Layer.unmerge in H. apply bind_returned in H as (s & w0 & Hs & H).
  pose proof (Layer_get_status_depth _ _ _ _ _ Hs) as Hdepth.
  destruct (query_returned _ _ _ _ (query_Layer_get_status_loop _ _ _) Hs)
    as (out & -> & _).
  destruct (unsupported s); [discriminate|].
  destruct (decide (s = Missing)) as [->|Hne].
  { injection H as <-. left. split; [eauto|done]. }
  right. split; [eauto|].
  apply bind_returned in H as ([] & w2 & ->%print_returned & H).
  apply unmerge_nodes_return in H. split; [done|].
  intros Hnodes. destruct Hdepth as [|[d' ->]]; [done|].
  unfold Layer.get_status.
  destruct (layer_nodes l) as [|[f n] ns]; [done|].
  apply Forall_cons in H as [Hgone _]. simpl in Hgone.
  cbn [Layer.get_status_loop]. unfold bind.
  by rewrite (status_Missing d' f n w1 Hgone).
Qed.

Lemma Layer_unmerge_effect_witness :
  fs (world_after (Layer.unmerge (git:=git_lstat) 1 layer_vim
                     (world_after (Layer.merge (git:=git_lstat) 1 layer_vim w_same)
                        w_same)) w_same)
    ⊆ fs (world_after (Layer.merge (git:=git_lstat) 1 layer_vim w_same) w_same).
Proof.
  apply (Layer_unmerge_effect (git:=git_lstat) 1 layer_vim
           (world_after (Layer.merge (git:=git_lstat) 1 layer_vim w_same) w_same)
           (world_after (Layer.unmerge (git:=git_lstat) 1 layer_vim
                     (world_after (Layer.merge (git:=git_lstat) 1 layer_vim w_same)
                        w_same)) w_same)).
  vm_compute. reflexivity.
Defined.

(** ** Further properties: [force_in] and the commands of the script *)

Lemma Node_force_in_eq {git : Git} {shutil : Shutil} d f n w :
  Node.force_in d f n w =
    match Node.get_status d f n w with
    | Returned s w0 =>
        if bool_decide (s = Conflicted) then
          match stdin w0 with
          | [] =>
              Raised EOFError
                (log ["Warning! Overwriting changes in " ++ path n;
                      "Proceed? [Y/n]"] w0)
          | confirm :: rest =>
              Returned (if Node.proceeds confirm
                        then AttributeError "Node" "package" else Done)
                {| fs := fs w0; stdin := rest;
                   stdout := (stdout w0
                              ++ ["Warning! Overwriting changes in " ++ path n])
                             ++ ["Proceed? [Y/n]"];
                   calls := calls w0 |}
          end
        else Raised NotSupported w0
    | Raised e w0 => Raised e w0
    | Diverged => Diverged
    end.
Proof.
  unfold Node.force_in. unfold bind at 1.
  destruct (Node.get_status d f n w) as [s w0|e0 w0|]; [|done|done].
  destruct (bool_decide (s = Conflicted)); simpl; [|done].
  unfold bind, print, input. simpl.
  destruct (stdin w0) as [|confirm rest]; simpl.
  { unfold log. simpl. by rewrite <- app_assoc. }
  by destruct (Node.proceeds confirm).
Qed.

(** X8.  [Node.force_in] changes nothing, neither on disk nor in the
    source of the node, and starts nothing: it raises unless the status
    is Conflicted and a line can be read; after a line other than n, N,
    No or no it ends with the AttributeError of [self.package], before
    anything is removed or copied; after one of the four it returns. *)
Theorem force_in_changes_nothing {git : Git} {shutil : Shutil} d f n w :
  (forall r w1, Node.force_in d f n w = Returned r w1 ->
     fs w1 = fs w /\ calls w1 = calls w /\
     exists confirm rest w0,
       Node.get_status d f n w = Returned Conflicted w0 /\
       stdin w = confirm :: rest /\ stdin w1 = rest /\
       r = if Node.proceeds confirm then AttributeError "Node" "package"
           else Done)
  /\
  (forall e w1, Node.force_in d f n w = Raised e w1 ->
     fs w1 = fs w /\ calls w1 = calls w).
Proof.
  rewrite Node_force_in_eq.
  destruct (Node.get_status d f n w) as [s w0|e0 w0|] eqn:Hs; [| |by split].
  2:{ destruct (query_raised _ _ _ _ (query_Node_get_status _ _ _) Hs)
        as (out & ->).
      split; [done|]. by intros e w1 [= _ <-]. }
  destruct (query_returned _ _ _ _ (query_Node_get_status _ _ _) Hs)
    as (out & -> & _).
  destruct (bool_decide (s = Conflicted)) eqn:Hc.
  2:{ split; [done|]. by intros e w1 [= _ <-]. }
  apply bool_decide_eq_true in Hc as ->. simpl.
  destruct (stdin w) as [|confirm rest] eqn:Hin.
  { split; [done|]. by intros e w1 [= _ <-]. }
  split; [|done]. intros r w1 [= <- <-]. simpl.
  split; [done|]. split; [done|]. by exists confirm, rest, (log out w).
Qed.

Lemma force_in_changes_nothing_witness :
  fs (world_after (Node.force_in (git:=git_lstat) (shutil:=copy_regular) 1
                     (vimrc [vim]) vim (w_edited ["y"])) w_absent)
  = fs (w_edited ["y"]).
Proof.
  apply (proj1 (force_in_changes_nothing (git:=git_lstat) (shutil:=copy_regular)
                  1 (vimrc [vim]) vim (w_edited ["y"]))
           (AttributeError "Node" "package")).
  vm_compute. reflexivity.
Defined.

Section CommandLemmas.

Context {git : Git}.

Lemma query_for_each {A} (xs : list A) (body : A -> M unit) :
  (forall x, query (body x)) -> query (for_each xs body).
Proof.
  intros Hb. induction xs as [|x xs IH]; simpl; [apply query_ret|].
  apply query_bind; [apply Hb|]. by intros _.
Qed.

Lemma query_Node_print_detailed d f n : query (Node.print_detailed d f n).
Proof.
  apply query_bind; [apply query_Node_get_status|]. intros s. apply query_print.
Qed.

Lemma query_Layer_print_detailed d l : query (Layer.print_detailed d l).
Proof.
  apply query_bind; [apply query_print|]. intros _.
  apply query_bind; [apply query_Layer_get_status_loop|]. intros s.
  apply query_bind; [apply query_print|]. intros _.
  apply query_for_each. intros fn. apply query_Node_print_detailed.
Qed.

Lemma query_doctor d layers : query (doctor d layers).
Proof.
  induction layers as [|l rest IH]; simpl; [apply query_ret|].
  apply query_bind; [apply query_Layer_get_status_loop|]. intros s.
  apply query_if; [apply query_ret|exact IH].
Qed.

Lemma find_layer_none layers wanted :
  (forall l, l ∈ layers -> name l <> wanted) -> find_layer layers wanted = None.
Proof.
  unfold find_layer. induction layers as [|l rest IH]; intros H; simpl; [done|].
  destruct (String.eqb_spec (name l) wanted) as [E|_].
  - exfalso. apply (H l); [by left|done].
  - apply IH. intros p Hp. apply H. by right.
Qed.

Lemma find_layer_first pre l post :
  (forall p, p ∈ pre -> name p <> name l) ->
  find_layer (pre ++ l :: post) (name l) = Some l.
Proof.
  unfold find_layer. induction pre as [|p pre IH]; intros H; simpl.
  - by rewrite String.eqb_refl.
  - destruct (String.eqb_spec (name p) (name l)) as [E|_].
    + exfalso. apply (H p); [by left|done].
    + apply IH. intros q Hq. apply H. by right.
Qed.

(** A layer that is not Identical is passed by the loop of [doctor]. *)
Lemma doctor_passes d l rest w s w0 :
  Layer.get_status d l w = Returned s w0 -> s <> Identical ->
  doctor d (l :: rest) w = doctor d rest w0.
Proof.
  intros Hs Hne. simpl. unfold bind. rewrite Hs.
  by rewrite bool_decide_eq_false_2.
Qed.

Lemma doctor_Done d layers w :
  Forall (fun l => exists s w0,
            Layer.get_status d l w = Returned s w0 /\ s <> Identical) layers ->
  exists out, doctor d layers w = Returned Done (log out w).
Proof.
  revert w. induction layers as [|l rest IH]; intros w H.
  { exists []. by rewrite log_nil. }
  apply Forall_cons in H as [(s & w0 & Hs & Hne) Hrest].
  rewrite (doctor_passes _ _ _ _ _ _ Hs Hne).
  destruct (query_returned _ _ _ _ (query_Layer_get_status_loop _ _ _) Hs)
    as (out & -> & _).
  destruct (IH (log out w)) as (out' & ->).
  - eapply Forall_impl; [exact Hrest|]. intros p (s' & w' & Hp & Hp').
    destruct (query_returned _ _ _ _ (query_Layer_get_status_loop _ _ _) Hp)
      as (o & _ & Hall).
    exists s', (log o (log out w)). split; [|done]. by apply Hall.
  - exists (out ++ out')%list. by rewrite log_log.
Qed.

Lemma doctor_stops d pre l post w :
  Forall (fun p => exists s w0,
            Layer.get_status d p w = Returned s w0 /\ s <> Identical) pre ->
  (exists w0, Layer.get_status d l w = Returned Identical w0) ->
  exists out,
    doctor d (pre ++ l :: post) w
    = Returned (AttributeError "Layer" "convert_to_symlink") (log out w).
Proof.
  revert w. induction pre as [|p pre IH]; intros w Hpre [w0 Hl].
  { destruct (query_returned _ _ _ _ (query_Layer_get_status_loop _ _ _) Hl)
      as (out & -> & _).
    exists out. simpl. unfold bind. by rewrite Hl. }
  apply Forall_cons in Hpre as [(s & w1 & Hs & Hne) Hrest].
  simpl app. rewrite (doctor_passes _ _ _ _ _ _ Hs Hne).
  destruct (query_returned _ _ _ _ (query_Layer_get_status_loop _ _ _) Hs)
    as (out & -> & _).
  destruct (IH (log out w)) as (out' & ->).
  - eapply Forall_impl; [exact Hrest|]. intros q (s' & w' & Hq & Hq').
    destruct (query_returned _ _ _ _ (query_Layer_get_status_loop _ _ _) Hq)
      as (o & _ & Hall).
    exists s', (log o (log out w)). split; [|done]. by apply Hall.
  - destruct (query_returned _ _ _ _ (query_Layer_get_status_loop _ _ _) Hl)
      as (o & _ & Hall).
    exists (log o (log out w)). by apply Hall.
  - exists (out ++ out')%list. by rewrite log_log.
Qed.

Lemma query_dispatch d layers args :
  command args <> "merge" -> command args <> "unmerge" ->
  query (dispatch d layers args).
Proof.
  intros Hm Hu. unfold dispatch.
  apply query_if.
  { apply query_bind; [|intros; apply query_ret].
    apply query_for_each. intros l. apply query_Layer_print_detailed. }
  apply query_if; [apply query_doctor|].
  destruct (String.eqb_spec (command args) "merge"); [done|].
  destruct (String.eqb_spec (command args) "unmerge"); [done|].
  apply query_bind; [apply query_print|intros; apply query_ret].
Qed.

End CommandLemmas.

(** X9.  Only the commands [merge] and [unmerge] change anything: every
    other command, [status] and [doctor] among them, leaves the file
    system as it is, reads nothing from the terminal and starts no hook,
    whether it returns or raises.  This holds for the branches on any
    list of layers, and so for the script, which loads the layers
    first. *)
Theorem other_commands_change_nothing {git : Git} {walk : Walk}
    d layers script home args w w1 :
  command args <> "merge" -> command args <> "unmerge" ->
  (ends_in (dispatch d layers args w) w1 -> fs w1 = fs w /\ same_io w w1)
  /\
  (ends_in (main d script home args w) w1 -> fs w1 = fs w /\ same_io w w1).
Proof.
  intros Hm Hu.
  assert (forall ls, ends_in (dispatch d ls args w) w1 ->
                     fs w1 = fs w /\ same_io w w1) as H.
  { intros ls H.
    destruct (dispatch d ls args w) as [r w'|e w'|] eqn:E; simpl in H;
      [| |done]; subst w'.
    - destruct (query_returned _ _ _ _ (query_dispatch d ls args Hm Hu) E)
        as (out & -> & _).
      by split.
    - destruct (query_raised _ _ _ _ (query_dispatch d ls args Hm Hu) E)
        as (out & ->).
      by split. }
  split; [apply H|]. unfold main, bind, ask. apply H.
Qed.

Lemma other_commands_change_nothing_witness :
  fs (world_after (main (git:=git_lstat) (walk:=walk_old_vim) 2
                     "/d/package.py" "/home/u"
                     (mkNamespace "status" (Some "vim")) w_same) w_absent)
  = fs w_same
  /\ same_io w_same
       (world_after (main (git:=git_lstat) (walk:=walk_old_vim) 2
                       "/d/package.py" "/home/u"
                       (mkNamespace "status" (Some "vim")) w_same) w_absent).
Proof.
  apply (proj2 (other_commands_change_nothing (git:=git_lstat)
                  (walk:=walk_old_vim) 2 [] "/d/package.py" "/home/u"
                  (mkNamespace "status" (Some "vim")) w_same _
                  ltac:(discriminate) ltac:(discriminate))).
  vm_compute. reflexivity.
Defined.

(** X10.  [merge] and [unmerge] work on the first layer of the name
    given.  When no layer has the name, one line is printed and nothing
    else happens; else the command is [Layer.merge] or [Layer.unmerge]
    of the first layer with the name, and what that raises ends the
    script. *)
Theorem named_layer_lookup {git : Git} d layers args wanted w :
  command args = "merge" \/ command args = "unmerge" ->
  wanted_layer args = Some wanted ->
  ((forall l, l ∈ layers -> name l <> wanted) ->
   dispatch d layers args w
   = Returned Done (log ["Layer not found: " ++ wanted] w))
  /\
  (forall pre l post,
     layers = (pre ++ l :: post)%list -> name l = wanted ->
     (forall p, p ∈ pre -> name p <> wanted) ->
     dispatch d layers args w
     = bind (if command args =? "merge" then Layer.merge d l
             else Layer.unmerge d l) (fun _ => ret Done) w).
Proof.
  intros Hc Hw. unfold dispatch. rewrite Hw. split.
  - intros Hnone. rewrite (find_layer_none _ _ Hnone).
    by destruct Hc as [-> | ->].
  - intros pre l post -> <- Hpre. rewrite (find_layer_first _ _ _ Hpre).
    by destruct Hc as [-> | ->].
Qed.

Lemma named_layer_lookup_witness :
  dispatch (git:=git_lstat) 2 [layer_old; layer_vim]
    (mkNamespace "unmerge" (Some "alt")) w_same
  = Returned Done (log ["Layer not found: alt"] w_same).
Proof.
  apply (proj1 (named_layer_lookup (git:=git_lstat) 2 [layer_old; layer_vim]
                  (mkNamespace "unmerge" (Some "alt")) "alt" w_same
                  ltac:(by right) eq_refl)).
  intros l [->|[->|[]%elem_of_nil]%elem_of_cons]%elem_of_cons; discriminate.
Defined.

(** X11.  [doctor] repairs nothing.  It asks the layers for their status
    in their order: when none of them is Identical it returns, and at
    the first one that is Identical it ends with the AttributeError of
    [convert_to_symlink]; the layers behind it are not asked. *)
Theorem doctor_ends_at_Identical {git : Git} d layers args w :
  command args = "doctor" ->
  (Forall (fun l => exists s w0,
             Layer.get_status d l w = Returned s w0 /\ s <> Identical) layers ->
   exists out, dispatch d layers args w = Returned Done (log out w))
  /\
  (forall pre l post,
     layers = (pre ++ l :: post)%list ->
     Forall (fun p => exists s w0,
               Layer.get_status d p w = Returned s w0 /\ s <> Identical) pre ->
     (exists w0, Layer.get_status d l w = Returned Identical w0) ->
     exists out,
       dispatch d layers args w
       = Returned (AttributeError "Layer" "convert_to_symlink") (log out w)).
Proof.
  intros Hc. unfold dispatch. rewrite Hc. simpl. split.
  - apply doctor_Done.
  - intros pre l post ->. apply doctor_stops.
Qed.

Lemma doctor_ends_at_Identical_witness :
  exists out,
    dispatch (git:=git_lstat) 2 [layer_old; layer_alt; layer_vim]
      (mkNamespace "doctor" (Some "x")) w_same
    = Returned (AttributeError "Layer" "convert_to_symlink") (log out w_same).
Proof.
  apply (proj2 (doctor_ends_at_Identical (git:=git_lstat) 2
                  [layer_old; layer_alt; layer_vim]
                  (mkNamespace "doctor" (Some "x")) w_same eq_refl)
           [layer_old] layer_alt [layer_vim] eq_refl).
  - constructor; [|constructor].
    exists Owned, w_same. split; [vm_compute; reflexivity|discriminate].
  - exists w_same. vm_compute. reflexivity.
Defined.

(** ** Further properties: the listing of [status] *)

Section ListingLemmas.

Context {git : Git}.




End ListingLemmas.



(** ** Lemmas on the registry *)

Lemma create_node_cases self name node_root made0 p file made1 :
  File.create_node self name node_root made0 = (p, file, made1) ->
  rel_path file = rel_path self /\ file_path file = file_path self /\
  layer p = name /\ p ∈ nodes file /\
  ((file = self /\ made1 = made0) \/
   (nodes file = (nodes self ++ [p])%list /\ made1 = S made0 /\
    p = Node_init made0 self name node_root /\
    Forall (fun q => layer q <> name) (nodes self))).
Proof.
  unfold File.create_node.
  destruct (list_find (fun p => layer p = name) (nodes self)) as [[j q]|] eqn:E.
  - intros [= <- <- <-]. apply list_find_Some in E as (Hq & Hl & _).
    repeat split; try done.
    + by apply list_elem_of_lookup_2 in Hq.
    + by left.
  - intros [= <- <- <-]. apply list_find_None in E. simpl.
    repeat split; try done.
    + apply elem_of_app. right. by left.
    + by right.
Qed.

Lemma create_node_sound home self name node_root made0 p file made1 :
  file_sound home made0 self ->
  File.create_node self name node_root made0 = (p, file, made1) ->
  file_sound home made1 file /\ made0 <= made1.
Proof.
  intros (Hid & Hl & Hlt & Hp) H.
  apply create_node_cases in H
    as (Hrel & Hpath & _ & _ & [[-> ->]|(Hn & -> & -> & Hnew)]).
  { by repeat split. }
  split; [|lia]. unfold file_sound. rewrite Hn, Hrel, Hpath, !map_app. simpl.
  repeat split.
  - apply NoDup_app. split; [done|]. split; [|apply NoDup_singleton].
    intros x Hx ->%list_elem_of_singleton.
    apply list_elem_of_fmap in Hx as (q & Hq & Hin).
    eapply Forall_forall in Hlt; [|exact Hin]. simpl in Hlt. lia.
  - apply NoDup_app. split; [done|]. split; [|apply NoDup_singleton].
    intros x Hx ->%list_elem_of_singleton.
    apply list_elem_of_fmap in Hx as (q & Hq & Hin).
    eapply Forall_forall in Hnew; [|exact Hin]. done.
  - apply Forall_app. split.
    + eapply Forall_impl; [exact Hlt|]. simpl. intros; lia.
    + constructor; [simpl; lia|constructor].
  - done.
Qed.

Lemma create_node_again self name node_root made0 p file made1 :
  File.create_node self name node_root made0 = (p, file, made1) ->
  forall node_root' made', File.create_node file name node_root' made'
                           = (p, file, made').
Proof.
  unfold File.create_node.
  destruct (list_find (fun p => layer p = name) (nodes self)) as [[j q]|] eqn:E.
  - intros [= <- <- <-] node_root' made'. by rewrite E.
  - intros [= <- <- <-] node_root' made'. simpl.
    rewrite list_find_app_r by done. simpl.
    by rewrite decide_True.
Qed.

Lemma Files_get_cases reg r i reg' :
  Files.get reg r = (i, reg') ->
  root reg' = root reg /\ configuration_root reg' = configuration_root reg /\
  ((reg' = reg /\
    exists f, files reg !! i = Some f /\ rel_path f = Path.normpath r) \/
   (files reg' = (files reg ++ [File.init (Path.normpath r)
                                  (Path.join (root reg) (Path.normpath r))])%list
    /\ i = length (files reg)
    /\ Forall (fun f => rel_path f <> Path.normpath r) (files reg))).
Proof.
  unfold Files.get.
  destruct (list_find _ (files reg)) as [[j f]|] eqn:E.
  - intros [= <- <-]. apply list_find_Some in E as (Hf & Hr & _).
    repeat split; try done. left. eauto.
  - intros [= <- <-]. apply list_find_None in E. simpl.
    repeat split; try done. by right.
Qed.

Lemma Files_get_lookup reg r i reg' :
  Files.get reg r = (i, reg') ->
  exists f, files reg' !! i = Some f /\ rel_path f = Path.normpath r /\
    (files reg !! i = Some f \/
     (files reg !! i = None /\ nodes f = [] /\
      file_path f = Path.join (root reg) (Path.normpath r))).
Proof.
  intros (_ & _ & [[-> (f & Hf & Hr)]|(Hfiles & -> & _)])%Files_get_cases.
  - exists f. eauto.
  - eexists. rewrite Hfiles. split; [apply list_lookup_middle; done|].
    split; [done|]. right. split; [|done]. by apply lookup_ge_None_2.
Qed.

Lemma Files_get_again reg r i reg' r' :
  Files.get reg r = (i, reg') -> Path.normpath r' = Path.normpath r ->
  Files.get reg' r' = (i, reg').
Proof.
  unfold Files.get. intros H ->.
  destruct (list_find _ (files reg)) as [[j f]|] eqn:E.
  - injection H as <- <-. by rewrite E.
  - injection H as <- <-. simpl. rewrite list_find_app_r by done. simpl.
    by rewrite decide_True.
Qed.

Lemma Files_get_grows reg r i reg' :
  Files.get reg r = (i, reg') -> grows reg reg'.
Proof.
  intros (Hroot & Hconf & [[-> _]|(Hfiles & _ & _)])%Files_get_cases.
  - repeat split. intros j f Hf. exists f. eauto.
  - repeat split; try done. intros j f Hf. exists f. rewrite Hfiles.
    split; [by apply lookup_app_l_Some|eauto].
Qed.

Lemma Files_get_NoDup reg r i reg' :
  Files.get reg r = (i, reg') ->
  NoDup (map rel_path (files reg)) -> NoDup (map rel_path (files reg')).
Proof.
  intros (_ & _ & [[-> _]|(Hfiles & _ & Hnew)])%Files_get_cases Hnd; [done|].
  rewrite Hfiles, map_app. apply NoDup_app. split; [done|].
  split; [|apply NoDup_singleton].
  intros x Hx ->%list_elem_of_singleton.
  apply list_elem_of_fmap in Hx as (f & Hf & Hin).
  eapply Forall_forall in Hnew; [|exact Hin]. done.
Qed.

Lemma grows_refl reg : grows reg reg.
Proof. repeat split. intros i f Hf. exists f. eauto. Qed.

Lemma grows_trans reg1 reg2 reg3 :
  grows reg1 reg2 -> grows reg2 reg3 -> grows reg1 reg3.
Proof.
  intros (Hr & Hc & H) (Hr' & Hc' & H'). split; [congruence|].
  split; [congruence|]. intros i f Hf.
  destruct (H i f Hf) as (f' & Hf' & Hrel & Hn).
  destruct (H' i f' Hf') as (f'' & Hf'' & Hrel' & Hn').
  exists f''. split; [done|]. split; [congruence|]. auto.
Qed.

Lemma bound_grows reg reg' name refs :
  grows reg reg' -> bound reg name refs -> bound reg' name refs.
Proof.
  intros (_ & _ & H) Hb. eapply Forall_impl; [exact Hb|].
  intros r (f & Hf & Hin & Hl).
  destruct (H _ _ Hf) as (f' & Hf' & _ & Hn). exists f'. auto.
Qed.

Lemma file_sound_later home made0 made1 f :
  made0 <= made1 -> file_sound home made0 f -> file_sound home made1 f.
Proof.
  intros Hle (? & ? & Hlt & ?). repeat split; try done.
  eapply Forall_impl; [exact Hlt|]. simpl. intros; lia.
Qed.

Lemma store_grows reg i f file :
  files reg !! i = Some f -> rel_path file = rel_path f ->
  (forall p, p ∈ nodes f -> p ∈ nodes file) ->
  grows reg (store i file reg).
Proof.
  intros Hf Hrel Hn. repeat split. intros j g Hg. simpl.
  destruct (decide (j = i)) as [->|Hne].
  - exists file. rewrite list_lookup_insert_eq by (by eapply lookup_lt_Some).
    assert (g = f) as -> by congruence. auto.
  - exists g. rewrite list_lookup_insert_ne by done. auto.
Qed.

(** One turn of the loop of [create_nodes]. *)
Lemma bind_node_sound conf dirs dir h f i reg p file made1 :
  heap_sound h -> origins conf dirs (registry h) -> dir ∈ dirs ->
  Files.get (registry h) f = (i, reg) ->
  File.create_node (files reg !!! i) (name_of conf dir) (node_root_of conf dir)
    (made h) = (p, file, made1) ->
  heap_sound (mkHeap (store i file reg) made1) /\
  origins conf dirs (store i file reg) /\
  grows (registry h) (store i file reg) /\
  bound (store i file reg) (name_of conf dir) [(i, p)].
Proof.
  intros [Hnd Hsound] Horigin Hdir Hget Hcn.
  destruct (Files_get_lookup _ _ _ _ Hget) as (f0 & Hf0 & Hkey & Hwas).
  rewrite (list_lookup_total_correct _ _ _ Hf0) in Hcn.
  pose proof (Files_get_cases _ _ _ _ Hget) as (Hroot & _ & _).
  assert (file_sound (root reg) (made h) f0 /\
          Forall (made_for conf dirs f0) (nodes f0)) as [Hs0 Ho0].
  { destruct Hwas as [Hold|(_ & Hnil & Hpath)].
    - split.
      + rewrite Hroot. by eapply Forall_lookup_1 in Hsound.
      + by eapply Forall_lookup_1 in Horigin.
    - split.
      + unfold file_sound. rewrite Hnil, Hpath, Hkey, Hroot. simpl.
        repeat split; constructor.
      + rewrite Hnil. constructor. }
  assert (Forall (file_sound (root reg) (made h)) (files reg) /\
          Forall (fun g => Forall (made_for conf dirs g) (nodes g)) (files reg))
    as [Hs1 Ho1].
  { apply Files_get_cases in Hget as (_ & _ & [[-> _]|(Hfiles & -> & _)]);
      [done|].
    rewrite Hfiles in Hf0 |- *. rewrite list_lookup_middle in Hf0 by done.
    injection Hf0 as <-.
    split; apply Forall_app; (split; [|by constructor]); [|done].
    by rewrite Hroot. }
  destruct (create_node_sound _ _ _ _ _ _ _ _ Hs0 Hcn) as [Hs Hle].
  pose proof (create_node_cases _ _ _ _ _ _ _ Hcn)
    as (Hrel & Hpath & Hlayer & Hin & Hcases).
  assert (forall q, q ∈ nodes f0 -> q ∈ nodes file) as Hkeep.
  { destruct Hcases as [[-> _]|(-> & _)]; [done|].
    intros q Hq. apply elem_of_app. by left. }
  split; [split|split; [|split]]; simpl.
  - rewrite list_fmap_insert, Hrel, list_insert_id.
    + by eapply Files_get_NoDup.
    + by rewrite list_lookup_fmap, Hf0.
  - apply Forall_insert; [|done].
    eapply Forall_impl; [exact Hs1|]. intros g. by apply file_sound_later.
  - apply Forall_insert; [done|].
    destruct Hcases as [[-> _]|(-> & _ & -> & _)]; [done|].
    apply Forall_app. split.
    + eapply Forall_impl; [exact Ho0|]. intros q (d0 & ? & ? & Hq).
      exists d0. by rewrite Hrel.
    + constructor; [|constructor]. exists dir. by rewrite Hrel.
  - eapply grows_trans; [by eapply Files_get_grows|].
    by eapply store_grows.
  - constructor; [|constructor]. exists file. simpl.
    rewrite list_lookup_insert_eq by (by eapply lookup_lt_Some). auto.
Qed.

Lemma create_nodes_sound conf dirs dir listing h refs h' :
  heap_sound h -> origins conf dirs (registry h) -> dir ∈ dirs ->
  create_nodes (name_of conf dir) (node_root_of conf dir) listing h = (refs, h') ->
  heap_sound h' /\ origins conf dirs (registry h') /\
  grows (registry h) (registry h') /\
  bound (registry h') (name_of conf dir) refs.
Proof.
  intros Hs Ho Hdir. revert h refs Hs Ho.
  induction listing as [|f rest IH]; intros h refs Hs Ho; simpl.
  { intros [= <- <-]. split; [done|]. split; [done|].
    split; [apply grows_refl|constructor]. }
  destruct (Files.get (registry h) f) as [i reg] eqn:Hget.
  destruct (File.create_node _ _ _ _) as [[p file] made1] eqn:Hcn.
  destruct (create_nodes _ _ rest _) as [refs' h1] eqn:Hrest.
  intros [= <- <-].
  destruct (bind_node_sound _ _ _ _ _ _ _ _ _ _ Hs Ho Hdir Hget Hcn)
    as (Hs1 & Ho1 & Hg1 & Hb1).
  destruct (IH _ _ Hs1 Ho1 Hrest) as (Hs2 & Ho2 & Hg2 & Hb2).
  split; [done|]. split; [done|]. split; [by eapply grows_trans|].
  apply Forall_cons. split; [|done].
  eapply bound_grows in Hb1; [|exact Hg2]. by apply Forall_cons in Hb1 as [? _].
Qed.

Section LoadingLemmas.

Context {walk : Walk}.

Lemma Layer_init_sound disk0 conf dirs dir h l h' :
  heap_sound h -> origins conf dirs (registry h) -> dir ∈ dirs ->
  Layer_init disk0 (Path.join conf dir) h = (l, h') ->
  heap_sound h' /\ origins conf dirs (registry h') /\
  grows (registry h) (registry h') /\
  layer_name l = name_of conf dir /\
  bound (registry h') (layer_name l) (node_refs l).
Proof.
  intros Hs Ho Hdir. unfold Layer_init.
  change (Path.basename (Path.normpath (Path.join conf dir)))
    with (name_of conf dir).
  change (Path.join (Path.join conf dir) "home") with (node_root_of conf dir).
  destruct (create_nodes _ _ _ h) as [refs h1] eqn:Hcn. intros [= <- <-].
  destruct (create_nodes_sound _ _ _ _ _ _ _ Hs Ho Hdir Hcn)
    as (? & ? & ? & ?).
  simpl. by split_and!.
Qed.

Lemma load_layers_sound disk0 conf dirs rest h ls h' :
  heap_sound h -> origins conf dirs (registry h) ->
  (forall dir, dir ∈ rest -> dir ∈ dirs) ->
  load_layers disk0 conf rest h = (ls, h') ->
  heap_sound h' /\ origins conf dirs (registry h') /\
  grows (registry h) (registry h') /\
  Forall2 (fun dir l => layer_name l = name_of conf dir /\
                        bound (registry h') (layer_name l) (node_refs l))
    rest ls.
Proof.
  revert h ls. induction rest as [|dir rest IH]; intros h ls Hs Ho Hsub; simpl.
  { intros [= <- <-]. split; [done|]. split; [done|].
    split; [apply grows_refl|constructor]. }
  destruct (Layer_init disk0 (Path.join conf dir) h) as [l h1] eqn:Hl.
  destruct (load_layers disk0 conf rest h1) as [ls' h2] eqn:Hrest.
  intros [= <- <-].
  destruct (Layer_init_sound _ _ _ _ _ _ _ Hs Ho (Hsub dir ltac:(by left)) Hl)
    as (Hs1 & Ho1 & Hg1 & Hname & Hb1).
  destruct (IH h1 ls' Hs1 Ho1 ltac:(intros; apply Hsub; by right) Hrest)
    as (Hs2 & Ho2 & Hg2 & Hall).
  split; [done|]. split; [done|]. split; [by eapply grows_trans|].
  constructor; [|done]. split; [done|]. by eapply bound_grows.
Qed.

(** The registry at the end of the loading. *)
Lemma loaded_sound disk0 script home :
  exists h objects,
    loaded disk0 script home = map (the_layer (registry h)) objects /\
    root (registry h) = home /\ heap_sound h /\
    origins (Path.dirname script)
      (subdirectories disk0 (Path.dirname script)) (registry h) /\
    Forall2 (fun dir l => layer_name l = name_of (Path.dirname script) dir /\
                          bound (registry h) (layer_name l) (node_refs l))
      (subdirectories disk0 (Path.dirname script)) objects.
Proof.
  unfold loaded. simpl.
  destruct (load_layers _ _ _ _) as [objects h] eqn:Hload.
  exists h, objects.
  apply load_layers_sound with (dirs := subdirectories disk0 (Path.dirname script))
    in Hload as (Hs & Ho & (Hroot & _) & Hall); try done.
  - split; [by constructor|constructor].
  - constructor.
Qed.

Lemma loaded_names disk0 script home :
  map name (loaded disk0 script home)
  = map (name_of (Path.dirname script))
      (subdirectories disk0 (Path.dirname script)).
Proof.
  destruct (loaded_sound disk0 script home) as (h & objects & -> & _ & _ & _ & H).
  induction H as [|dir l dirs ls [Hn _] _ IH]; [done|].
  simpl. by rewrite Hn, IH.
Qed.

(** What the loading gives for a node of a layer. *)
Lemma loaded_nodes disk0 script home :
  exists h,
    heap_sound h /\ root (registry h) = home /\
    forall l f n,
      l ∈ loaded disk0 script home -> (f, n) ∈ layer_nodes l ->
      (exists i, files (registry h) !! i = Some f) /\
      n ∈ nodes f /\ layer n = name l /\
      made_for (Path.dirname script)
        (subdirectories disk0 (Path.dirname script)) f n.
Proof.
  destruct (loaded_sound disk0 script home)
    as (h & objects & -> & Hroot & Hs & Ho & Hall).
  exists h. split; [done|]. split; [done|]. intros l f n Hl Hfn.
  apply list_elem_of_fmap in Hl as (obj & -> & Hobj).
  assert (bound (registry h) (layer_name obj) (node_refs obj)) as Hb.
  { clear -Hall Hobj. induction Hall as [|dir l dirs ls [_ Hb] _ IH].
    - by apply elem_of_nil in Hobj.
    - apply elem_of_cons in Hobj as [->|Hobj]; auto. }
  simpl in Hfn. apply list_elem_of_fmap in Hfn as ([i p] & [= -> ->] & Hr).
  eapply Forall_forall in Hb; [|exact Hr].
  destruct Hb as (f & Hf & Hin & Hlayer). simpl in *.
  rewrite (list_lookup_total_correct _ _ _ Hf).
  split; [eauto|]. split; [done|]. split; [done|].
  eapply Forall_lookup_1 in Ho; [|exact Hf].
  by eapply Forall_forall in Ho.
Qed.

End LoadingLemmas.

Lemma NoDup_fmap_eq {A B} (g : A -> B) (xs : list A) a b :
  NoDup (map g xs) -> a ∈ xs -> b ∈ xs -> g a = g b -> a = b.
Proof.
  induction xs as [|x xs IH]; [by intros _ ?%elem_of_nil|].
  simpl. intros [Hnot Hnd]%NoDup_cons Ha Hb Hg.
  apply elem_of_cons in Ha as [->|Ha]; apply elem_of_cons in Hb as [->|Hb].
  - done.
  - exfalso. apply Hnot. rewrite Hg. apply list_elem_of_fmap. eauto.
  - exfalso. apply Hnot. rewrite <- Hg. apply list_elem_of_fmap. eauto.
  - by apply IH.
Qed.

(** ** Further properties: the registry and the loading *)

(** X13.  [Files.get] finds or creates: the File it returns has the
    normalised relative path; the Files that were there stay at their
    places with their nodes; no second File is made for a relative path;
    and asking again, with any spelling of the path, returns the same
    File and creates nothing. *)
Theorem Files_get_finds_or_creates reg r i reg' :
  Files.get reg r = (i, reg') ->
  (exists f, files reg' !! i = Some f /\ rel_path f = Path.normpath r) /\
  grows reg reg' /\
  (NoDup (map rel_path (files reg)) -> NoDup (map rel_path (files reg'))) /\
  (forall r', Path.normpath r' = Path.normpath r ->
     Files.get reg' r' = (i, reg')).
Proof.
  intros H. split_and!.
  - destruct (Files_get_lookup _ _ _ _ H) as (f & ? & ? & _). eauto.
  - by eapply Files_get_grows.
  - by eapply Files_get_NoDup.
  - intros r' Hr. by eapply Files_get_again.
Qed.

Lemma Files_get_finds_or_creates_witness :
  Files.get (snd (Files.get (Files.init "/d/package.py" "/home/u") "./.vimrc"))
    ".vimrc"
  = Files.get (Files.init "/d/package.py" "/home/u") "./.vimrc".
Proof.
  apply (proj2 (proj2 (proj2
           (Files_get_finds_or_creates (Files.init "/d/package.py" "/home/u")
              "./.vimrc" 0 _ eq_refl)))).
  vm_compute. reflexivity.
Defined.

(** X14.  [File.create_node] makes at most one node for a layer: the
    node it returns is a node of the File and of the layer; the nodes
    that were there stay; a File whose nodes are different objects of
    different layers stays so; and a second call for the layer returns
    the same node and makes none. *)
Theorem create_node_once_per_layer self name node_root made0 p file made1 :
  File.create_node self name node_root made0 = (p, file, made1) ->
  p ∈ nodes file /\ layer p = name /\
  (forall q, q ∈ nodes self -> q ∈ nodes file) /\
  (forall home, file_sound home made0 self -> file_sound home made1 file) /\
  (forall node_root' made',
     File.create_node file name node_root' made' = (p, file, made')).
Proof.
  intros H.
  pose proof (create_node_cases _ _ _ _ _ _ _ H) as (_ & _ & Hl & Hin & Hc).
  split_and!; try done.
  - destruct Hc as [[-> _]|(-> & _)]; [done|].
    intros q Hq. apply elem_of_app. by left.
  - intros home Hs. by destruct (create_node_sound _ _ _ _ _ _ _ _ Hs H).
  - by eapply create_node_again.
Qed.

Lemma create_node_once_per_layer_witness :
  File.create_node (vimrc [vim; old]) "old" "/d/other/home" 9
  = (old, vimrc [vim; old], 9).
Proof.
  apply (proj2 (proj2 (proj2 (proj2
           (create_node_once_per_layer (vimrc [vim]) "old" "/d/old/home" 3
              old (vimrc [vim; old]) 4 eq_refl))))).
Defined.

(** X15.  After the loading, for layers of different names (as the
    directories of one directory have): a node of a layer is a node of
    its File and carries the name of the layer; the nodes of the File
    are different objects of different layers; the target is the
    relative path in the home directory, and the source is the relative
    path in the [home] directory of the layer. *)
Theorem loaded_layers_consistent {walk : Walk} disk0 script home l f n :
  NoDup (map name (loaded disk0 script home)) ->
  l ∈ loaded disk0 script home -> (f, n) ∈ layer_nodes l ->
  n ∈ nodes f /\ layer n = name l /\
  NoDup (map node_id (nodes f)) /\ NoDup (map layer (nodes f)) /\
  file_path f = Path.join home (rel_path f) /\
  (exists dir, dir ∈ subdirectories disk0 (Path.dirname script) /\
               name_of (Path.dirname script) dir = name l) /\
  (forall dir, dir ∈ subdirectories disk0 (Path.dirname script) ->
     name_of (Path.dirname script) dir = name l ->
     path n = Path.join (node_root_of (Path.dirname script) dir) (rel_path f)).
Proof.
  intros Hnames Hl Hfn. rewrite loaded_names in Hnames.
  destruct (loaded_nodes disk0 script home) as (h & [_ Hs] & Hroot & Hall).
  destruct (Hall l f n Hl Hfn) as ([i Hf] & Hin & Hlayer & dir & Hdir & Hn & Hp).
  eapply Forall_lookup_1 in Hs; [|exact Hf].
  destruct Hs as (Hid & Hlay & _ & Hpath). rewrite Hroot in Hpath.
  split_and!; try done.
  - exists dir. split; [done|]. congruence.
  - intros dir' Hdir' Hn'.
    assert (dir' = dir) as ->; [|done].
    eapply NoDup_fmap_eq; [exact Hnames|done|done|congruence].
Qed.

Lemma loaded_old_vim :
  loaded (walk:=walk_old_vim) (disk base) "/d/package.py" "/home/u"
  = [loaded_old; loaded_vim].
Proof. vm_compute. reflexivity. Qed.

Lemma loaded_layers_consistent_witness :
  vim3 ∈ nodes loaded_vimrc /\ layer vim3 = name loaded_vim.
Proof.
  pose proof (loaded_layers_consistent (walk:=walk_old_vim) (disk base)
                "/d/package.py" "/home/u" loaded_vim loaded_vimrc vim3) as H.
  rewrite loaded_old_vim in H.
  destruct H as (H1 & H2 & _).
  - apply (bool_decide_unpack _). vm_compute. reflexivity.
  - in_list.
  - in_list.
  - by split.
Defined.

(** X16.  In the script, a node answers Conflicted only for a file that
    no other layer supplies: when a node of a loaded layer reports
    Conflicted, it is the only node of its File. *)
Theorem loaded_Conflicted_is_alone {git : Git} {walk : Walk}
    d disk0 script home l f n w w' :
  NoDup (map name (loaded disk0 script home)) ->
  l ∈ loaded disk0 script home -> (f, n) ∈ layer_nodes l ->
  Node.get_status d f n w = Returned Conflicted w' ->
  nodes f = [n].
Proof.
  intros _ Hl Hfn.
  destruct (loaded_nodes disk0 script home) as (h & [_ Hs] & _ & Hall).
  destruct (Hall l f n Hl Hfn) as ([i Hf] & Hin & _).
  eapply Forall_lookup_1 in Hs; [|exact Hf]. destruct Hs as (Hid & _).
  by apply Conflicted_only_node.
Qed.

Lemma loaded_old_alone :
  loaded (walk:=walk_old) (fs w_tmux) "/d/package.py" "/home/u"
  = [mkLayer "old" [(loaded_tmuxconf_alone, old_alone)] [] []].
Proof. vm_compute. reflexivity. Qed.

Lemma loaded_Conflicted_is_alone_witness :
  nodes loaded_tmuxconf_alone = [old_alone].
Proof.
  pose proof (loaded_Conflicted_is_alone (git:=git_lstat) (walk:=walk_old) 1
                (fs w_tmux) "/d/package.py" "/home/u"
                (mkLayer "old" [(loaded_tmuxconf_alone, old_alone)] [] [])
                loaded_tmuxconf_alone old_alone w_tmux w_tmux) as H.
  rewrite loaded_old_alone in H. apply H.
  - apply (bool_decide_unpack _). vm_compute. reflexivity.
  - in_list.
  - in_list.
  - vm_compute. reflexivity.
Defined.

(** X17.  Layers that supply the same relative path are bound to the
    same File object, so their nodes are siblings; and a layer has one
    node for a File.  For layers of different names. *)
Theorem loaded_files_shared {walk : Walk} disk0 script home l l' f f' n n' :
  NoDup (map name (loaded disk0 script home)) ->
  l ∈ loaded disk0 script home -> (f, n) ∈ layer_nodes l ->
  l' ∈ loaded disk0 script home -> (f', n') ∈ layer_nodes l' ->
  rel_path f = rel_path f' ->
  f = f' /\ n ∈ nodes f /\ n' ∈ nodes f /\ (n = n' <-> name l = name l').
Proof.
  intros _ Hl Hfn Hl' Hfn' Hrel.
  destruct (loaded_nodes disk0 script home) as (h & [Hnd Hs] & _ & Hall).
  destruct (Hall l f n Hl Hfn) as ([i Hf] & Hin & Hlayer & _).
  destruct (Hall l' f' n' Hl' Hfn') as ([i' Hf'] & Hin' & Hlayer' & _).
  assert (i = i') as <-.
  { eapply NoDup_lookup; [exact Hnd| |].
    - by rewrite list_lookup_fmap, Hf.
    - by rewrite list_lookup_fmap, Hf', Hrel. }
  assert (f' = f) as -> by congruence.
  split; [done|]. split; [done|]. split; [done|]. split.
  - intros <-. congruence.
  - intros Hname. eapply Forall_lookup_1 in Hs; [|exact Hf].
    destruct Hs as (_ & Hlay & _).
    eapply NoDup_fmap_eq; [exact Hlay|done|done|congruence].
Qed.

Lemma loaded_files_shared_witness :
  loaded_vimrc = loaded_vimrc /\ old0 ∈ nodes loaded_vimrc /\
  vim3 ∈ nodes loaded_vimrc /\ (old0 = vim3 <-> name loaded_old = name loaded_vim).
Proof.
  pose proof (loaded_files_shared (walk:=walk_old_vim) (disk base)
                "/d/package.py" "/home/u" loaded_old loaded_vim
                loaded_vimrc loaded_vimrc old0 vim3) as H.
  rewrite loaded_old_vim in H. apply H.
  - apply (bool_decide_unpack _). vm_compute. reflexivity.
  - in_list.
  - in_list.
  - in_list.
  - in_list.
  - reflexivity.
Defined.
